(** * shortcut-release-action: [release_handler.py]

    A shallow embedding of the release script: it lists the commit subjects
    since the previous release, collects the Shortcut story ids they mention,
    fetches each story, sorts the stories into three buckets, picks the next
    semantic version and renders markdown release notes.

    Conventions of the embedding.
    - A Python [str] is a Rocq [string]: the sequence of the bytes of its
      UTF-8 encoding.  A character is a code point, one to four bytes of the
      string.  The regular-expression class \d, [int()] and [str.strip] work
      on characters: the decimal digits and the white space of Unicode, of
      every script.  [str.lower] is modelled on the letters A-Z: the script
      compares what it lower-cases with ASCII text only ([sc-], the three
      story types), which contains no [i] and no [k], the two ASCII letters
      that a letter outside ASCII lower-cases to.
    - The outside world (the token in the environment, the [git] subprocess,
      the HTTP API, the order in which this process iterates over a set) is a
      read-only record [world]; [subprocess.run] and [requests.get] are
      look-ups in it.
    - The calls into [subprocess], [requests], [re] and [semantic_version]
      follow the documented behaviour of these packages.
    - Logging and exceptions are threaded by the monad [M]: a computation
      takes the log written so far and returns an [outcome] with the new log.
    - A Python dict used as a map is a [gmap].
    - Integers are unbounded, as in Python: [N] and [Z].  The bound that
      recent interpreters put on the number of digits of a converted integer
      (4300 unless configured otherwise) is not modelled. *)

From Stdlib Require Import Ascii.
From stdpp Require Import gmap strings list fin_maps.
From Stdlib Require Import DecimalString DecimalN.
From Stdlib Require DecimalFacts.

Set Warnings "-register-all".

(** ** Python string primitives *)

Module Py.

Definition newline : ascii := "010"%char.

Definition code (c : ascii) : N := N_of_ascii c.

(** The range [[0-9]] of a regular expression. *)
Definition is_digit (c : ascii) : bool :=
  ((48 <=? code c) && (code c <=? 57))%N.

Definition is_upper (c : ascii) : bool :=
  ((65 <=? code c) && (code c <=? 90))%N.

Definition is_alpha (c : ascii) : bool :=
  is_upper c || ((97 <=? code c) && (code c <=? 122))%N.

Definition lower_char (c : ascii) : ascii :=
  if is_upper c then ascii_of_N (code c + 32) else c.

(** [s.lower()] *)
Fixpoint lower (s : string) : string :=
  match s with
  | EmptyString => EmptyString
  | String c t => String (lower_char c) (lower t)
  end.

Definition upper_char (c : ascii) : ascii :=
  if ((97 <=? code c) && (code c <=? 122))%N then ascii_of_N (code c - 32) else c.

(** [s.upper()] *)
Fixpoint upper (s : string) : string :=
  match s with
  | EmptyString => EmptyString
  | String c t => String (upper_char c) (upper t)
  end.

Definition is_empty (s : string) : bool :=
  match s with EmptyString => true | String _ _ => false end.

(** *** Characters *)

(** A byte 10xxxxxx, which continues a character of several bytes. *)
Definition is_continuation (c : ascii) : bool :=
  ((128 <=? code c) && (code c <? 192))%N.

Definition continuation (c : ascii) : N := (code c - 128)%N.

(** The first character of [s]: its code point, its bytes and what follows
    it.  [None] when [s] is empty or does not start with the UTF-8 encoding
    of a code point (an encoding longer than needed and the encoding of a
    surrogate are refused, as by Python's decoder). *)
Definition first_char (s : string) : option (N * string * string) :=
  match s with
  | String b0 t0 =>
      if (code b0 <? 128)%N then Some (code b0, String b0 EmptyString, t0) else
      match t0 with
      | String b1 t1 =>
          if (code b0 <? 224)%N then
            let cp := ((code b0 - 192) * 64 + continuation b1)%N in
            if (192 <=? code b0)%N && is_continuation b1 && (128 <=? cp)%N
            then Some (cp, String b0 (String b1 EmptyString), t1)
            else None
          else
          match t1 with
          | String b2 t2 =>
              if (code b0 <? 240)%N then
                let cp := (((code b0 - 224) * 64 + continuation b1) * 64
                           + continuation b2)%N in
                if is_continuation b1 && is_continuation b2 && (2048 <=? cp)%N
                   && negb ((55296 <=? cp)%N && (cp <? 57344)%N)
                then Some (cp, String b0 (String b1 (String b2 EmptyString)), t2)
                else None
              else
              match t2 with
              | String b3 t3 =>
                  let cp := ((((code b0 - 240) * 64 + continuation b1) * 64
                              + continuation b2) * 64 + continuation b3)%N in
                  if is_continuation b1 && is_continuation b2 && is_continuation b3
                     && (65536 <=? cp)%N && (cp <? 1114112)%N
                  then Some (cp, String b0 (String b1 (String b2 (String b3 EmptyString))), t3)
                  else None
              | EmptyString => None
              end
          | EmptyString => None
          end
      | EmptyString => None
      end
  | EmptyString => None
  end.

(** [c.isspace()], the white space that [str.strip] removes: the ASCII
    white space (tab to carriage return, the separators 0x1c-0x1f, the
    space), the next line control, the no-break space, the Ogham space mark,
    the spaces U+2000-U+200A, the line and paragraph separators, the narrow
    no-break space, the medium mathematical space and the ideographic
    space. *)
Definition is_space (cp : N) : bool :=
  (((9 <=? cp) && (cp <=? 13)) || ((28 <=? cp) && (cp <=? 32))
   || (cp =? 133) || (cp =? 160) || (cp =? 5760)
   || ((8192 <=? cp) && (cp <=? 8202))
   || (cp =? 8232) || (cp =? 8233) || (cp =? 8239) || (cp =? 8287) || (cp =? 12288))%N.

(** The decimal digits (general category Nd) of Unicode 14.0, the version of
    the character database of CPython 3.11: each script has its ten digits
    in a row, from zero to nine; the list gives the zero of each row. *)
Definition decimal_zeros : list N :=
  [48; 1632; 1776; 1984; 2406; 2534; 2662; 2790; 2918; 3046; 3174; 3302; 3430;
   3558; 3664; 3792; 3872; 4160; 4240; 6112; 6160; 6470; 6608; 6784; 6800; 6992;
   7088; 7232; 7248; 42528; 43216; 43264; 43472; 43504; 43600; 44016; 65296;
   66720; 68912; 69734; 69872; 69942; 70096; 70384; 70736; 70864; 71248; 71360;
   71472; 71904; 72016; 72784; 73040; 73120; 92768; 92864; 93008; 120782; 120792;
   120802; 120812; 120822; 123200; 123632; 125264; 130032]%N.

(** The value of a decimal digit; [None] for any other character. *)
Definition decimal_value (cp : N) : option N :=
  (λ zero, cp - zero)%N
  <$> List.find (λ zero, (zero <=? cp) && (cp <? zero + 10))%N decimal_zeros.

(** The first character of [s] when it is a decimal digit, what the class
    \d matches: its value, its bytes and what follows it. *)
Definition first_digit (s : string) : option (N * string * string) :=
  match first_char s with
  | Some (cp, char, rest) =>
      match decimal_value cp with
      | Some digit => Some (digit, char, rest)
      | None => None
      end
  | None => None
  end.

(** What follows the first character of [s] when it is white space. *)
Definition first_space (s : string) : option string :=
  match first_char s with
  | Some (cp, _, rest) => if is_space cp then Some rest else None
  | None => None
  end.

(** The longest prefix of decimal digits and what follows it: what a greedy
    \d* consumes.  At most [n] digits are read; a string has no more digits
    than bytes. *)
Fixpoint span_digits_upto (n : nat) (s : string) : string * string :=
  match n with
  | O => (EmptyString, s)
  | S n' =>
      match first_digit s with
      | Some (_, char, rest) =>
          let '(ds, r) := span_digits_upto n' rest in (char +:+ ds, r)
      | None => (EmptyString, s)
      end
  end.

Definition span_digits (s : string) : string * string :=
  span_digits_upto (String.length s) s.

(** Every character of [s] is a decimal digit. *)
Definition all_digits (s : string) : bool := is_empty (span_digits s).2.

(** [s.isdecimal()]: [s] is not empty and all its characters are decimal
    digits; it is the whole of a match of \d+.  On such a string, and on a
    string of ASCII letters, digits and hyphens, it is also [s.isdigit()]. *)
Definition isdigit (s : string) : bool := negb (is_empty s) && all_digits s.

(** The longest prefix in the range [[0-9]] and what follows it: what a
    greedy [[0-9]*] consumes. *)
Fixpoint span_ascii_digits (s : string) : string * string :=
  match s with
  | EmptyString => (EmptyString, EmptyString)
  | String c t =>
      if is_digit c then let '(ds, r) := span_ascii_digits t in (String c ds, r)
      else (EmptyString, s)
  end.

(** [s.lstrip()]; at most [n] characters are removed. *)
Fixpoint lstrip_upto (n : nat) (s : string) : string :=
  match n with
  | O => s
  | S n' =>
      match first_space s with
      | Some rest => lstrip_upto n' rest
      | None => s
      end
  end.

Definition lstrip (s : string) : string := lstrip_upto (String.length s) s.

(** [s.rstrip()]: [s] up to the point from which only white space
    follows. *)
Fixpoint rstrip (s : string) : string :=
  match s with
  | EmptyString => EmptyString
  | String c t => if is_empty (lstrip s) then EmptyString else String c (rstrip t)
  end.

(** [s.strip()] *)
Definition strip (s : string) : string := rstrip (lstrip s).

(** [s.lstrip(chars)] for a one-character [chars]. *)
Fixpoint lstrip_char (x : ascii) (s : string) : string :=
  match s with
  | EmptyString => EmptyString
  | String c t => if Ascii.eqb c x then lstrip_char x t else s
  end.

(** [s.split(sep)] for a one-character [sep]: never the empty list, empty
    pieces are kept. *)
Fixpoint split (sep : ascii) (s : string) : list string :=
  match s with
  | EmptyString => [EmptyString]
  | String c t =>
      if Ascii.eqb c sep then EmptyString :: split sep t
      else match split sep t with
           | h :: r => String c h :: r
           | [] => [String c EmptyString]
           end
  end.

(** [sep.join(l)] *)
Definition join (sep : string) (l : list string) : string := String.concat sep l.

(** Truth value of a list: [if l:]. *)
Definition truthy {A} (l : list A) : bool :=
  match l with [] => false | _ :: _ => true end.

(** ['%d' % n] *)
Definition str_of_int (n : N) : string := NilZero.string_of_uint (N.to_uint n).

(** The digits of [s] written in ASCII; [None] when a character of [s] is
    not a decimal digit.  At most [n] digits are read. *)
Fixpoint ascii_digits_upto (n : nat) (s : string) : option string :=
  match s with
  | EmptyString => Some EmptyString
  | String _ _ =>
      match n with
      | O => None
      | S n' =>
          match first_digit s with
          | Some (digit, _, rest) =>
              String (ascii_of_N (48 + digit)) <$> ascii_digits_upto n' rest
          | None => None
          end
      end
  end.

Definition ascii_digits (s : string) : option string :=
  ascii_digits_upto (String.length s) s.

(** [int(s)] for a string of decimal digits, of whatever script; [None]
    stands for [ValueError]. *)
Definition int_of_str (s : string) : option N :=
  ascii ← ascii_digits s;
  N.of_uint <$> NilZero.uint_of_string ascii.

End Py.

(** ** Regular expressions of the script *)

Module Re.
Import Py.

(** One attempt of the pattern [sc-(\d+)] at the start of [s]: group 1 and
    the length of the whole match, in bytes. *)
Definition match_story_at (s : string) : option (string * nat) :=
  match s with
  | String "s" (String "c" (String "-" t)) =>
      let '(ds, _) := span_digits t in
      if is_empty ds then None else Some (ds, 3 + String.length ds)
  | _ => None
  end.

(** [re.finditer(r'sc-(\d+)', s)], as the list of the group 1 of each
    match.  The scan goes left to right; after a match it resumes at the
    end of the match ([skip] counts the bytes of the last match still to be
    passed), otherwise one byte further: a match starts with the letter [s],
    which is one byte and is no byte of a longer character. *)
Fixpoint finditer_from (skip : nat) (s : string) : list string :=
  match s with
  | EmptyString => []
  | String _ t =>
      match skip with
      | S k => finditer_from k t
      | O =>
          match match_story_at s with
          | Some (g, n) => g :: finditer_from (Nat.pred n) t
          | None => finditer_from 0 t
          end
      end
  end.

Definition finditer (s : string) : list string := finditer_from 0 s.

(** The anchor [$]: the end of the string, or just before a final line
    feed. *)
Definition at_end (s : string) : bool :=
  match s with
  | EmptyString => true
  | String c EmptyString => Ascii.eqb c newline
  | _ => false
  end.

(** [[0-9]+] followed by a dot: the digits consumed and the rest after the
    dot. *)
Definition digits_dot (s : string) : option (string * string) :=
  match span_ascii_digits s with
  | (ds, String "." r) => if is_empty ds then None else Some (ds, r)
  | _ => None
  end.

(** [re.match(r'^v[0-9]+\.[0-9]+\.[0-9]+$', s)] as a truth value. *)
Definition match_version_tag (s : string) : bool :=
  match s with
  | String "v" r0 =>
      match digits_dot r0 with
      | Some (_, r1) =>
          match digits_dot r1 with
          | Some (_, r2) =>
              let '(ds, r3) := span_ascii_digits r2 in
              negb (is_empty ds) && at_end r3
          | None => false
          end
      | None => false
      end
  | _ => false
  end.

End Re.

(** ** The [semantic_version] package

    [Version] is imported from the third-party package [semantic_version]
    (line 12 of the script); what the script uses of it is modelled here:
    the constructor on a version string, [str()], and the [next_*] methods. *)

Module SemVer.
Import Py.

Record Version := {
  major : N;
  minor : N;
  patch : N;
  prerelease : list string;
  build : list string
}.

(** The class [[0-9a-zA-Z.-]] *)
Definition is_ident_char (c : ascii) : bool :=
  is_digit c || is_alpha c || Ascii.eqb c "." || Ascii.eqb c "-".

Fixpoint span_ident (s : string) : string * string :=
  match s with
  | EmptyString => (EmptyString, EmptyString)
  | String c t =>
      if is_ident_char c then let '(g, r) := span_ident t in (String c g, r)
      else (EmptyString, s)
  end.

(** The optional group [(?:<mark>([0-9a-zA-Z.-]+))?]: what it captures and
    the rest of the input. *)
Definition opt_group (mark : ascii) (s : string) : option string * string :=
  match s with
  | String c t =>
      if Ascii.eqb c mark then
        let '(g, r) := span_ident t in
        if is_empty g then (None, s) else (Some g, r)
      else (None, s)
  | EmptyString => (None, s)
  end.

(** \d+ followed by a dot: the digits consumed and the rest after the
    dot. *)
Definition number_dot (s : string) : option (string * string) :=
  match span_digits s with
  | (ds, String "." r) => if is_empty ds then None else Some (ds, r)
  | _ => None
  end.

(** [_has_leading_zero(value)] *)
Definition has_leading_zero (value : string) : bool :=
  match value with
  | String "0" _ => isdigit value && negb (String.eqb value "0")
  | _ => false
  end.

(** [_validate_identifiers]: no identifier is empty and, unless leading
    zeroes are allowed, none is a number written with one. *)
Definition valid_identifiers (allow_leading_zeroes : bool) (identifiers : list string) : bool :=
  forallb (fun item =>
             negb (is_empty item) &&
             (allow_leading_zeroes || negb (has_leading_zero item)))
          identifiers.

Definition identifiers (allow_leading_zeroes : bool) (group : option string)
  : option (list string) :=
  match group with
  | None => Some []
  | Some g =>
      let ids := split "." g in
      if valid_identifiers allow_leading_zeroes ids then Some ids else None
  end.

(** [Version.parse(version_string)] with [partial=False]: the version
    string must match
    [^(\d+)\.(\d+)\.(\d+)(?:-([0-9a-zA-Z.-]+))?(?:\+([0-9a-zA-Z.-]+))?$]
    and its three numbers must have no leading zero.  [None] stands for
    [ValueError]. *)
Definition parse (version_string : string) : option Version :=
  if is_empty version_string then None else
  '(major, r1) ← number_dot version_string;
  '(minor, r2) ← number_dot r1;
  let '(patch, r3) := span_digits r2 in
  if is_empty patch then None else
  let '(prerelease, r4) := opt_group "-" r3 in
  let '(build, r5) := opt_group "+" r4 in
  if negb (Re.at_end r5) then None else
  if has_leading_zero major || has_leading_zero minor || has_leading_zero patch
  then None else
  prerelease ← identifiers false prerelease;
  build ← identifiers true build;
  major ← int_of_str major;
  minor ← int_of_str minor;
  patch ← int_of_str patch;
  Some {| major := major; minor := minor; patch := patch;
          prerelease := prerelease; build := build |}.

(** [str(version)] *)
Definition str (v : Version) : string :=
  str_of_int (major v) +:+ "." +:+ str_of_int (minor v) +:+ "." +:+ str_of_int (patch v)
  +:+ (if truthy (prerelease v) then "-" +:+ join "." (prerelease v) else EmptyString)
  +:+ (if truthy (build v) then "+" +:+ join "." (build v) else EmptyString).

Definition release (major minor patch : N) : Version :=
  {| major := major; minor := minor; patch := patch; prerelease := []; build := [] |}.

Definition next_major (v : Version) : Version :=
  if truthy (prerelease v) && (minor v =? 0)%N && (patch v =? 0)%N
  then release (major v) 0 0
  else release (major v + 1) 0 0.

Definition next_minor (v : Version) : Version :=
  if truthy (prerelease v) && (patch v =? 0)%N
  then release (major v) (minor v) 0
  else release (major v) (minor v + 1) 0.

Definition next_patch (v : Version) : Version :=
  if truthy (prerelease v)
  then release (major v) (minor v) (patch v)
  else release (major v) (minor v) (patch v + 1).

End SemVer.

(** ** Values, exceptions, the log and the outside world *)

(** A decoded JSON document ([response.json()]).  A number is kept as its
    literal: the script never computes with one. *)
Inductive json :=
| JNull
| JBool (b : bool)
| JNumber (literal : string)
| JString (s : string)
| JArray (items : list json)
| JObject (fields : list (string * json)).

(** The exceptions the script meets.  [HTTPError], [ConnectionError] and
    [JSONDecodeError] are the [requests.exceptions] classes, all subclasses of
    [RequestException]; [UnicodeDecodeError] is a subclass of [ValueError];
    [SystemExit] is not a subclass of [Exception]. *)
Inductive exn :=
| CalledProcessError
| OSError
| UnicodeDecodeError
| ConnectionError
| HTTPError
| JSONDecodeError
| ValueError
| AttributeError
| KeyError
| SystemExit (code : Z).

Definition is_CalledProcessError (e : exn) : bool :=
  match e with CalledProcessError => true | _ => false end.

Definition is_RequestException (e : exn) : bool :=
  match e with ConnectionError | HTTPError | JSONDecodeError => true | _ => false end.

Definition is_ValueError (e : exn) : bool :=
  match e with ValueError | UnicodeDecodeError => true | _ => false end.

Definition is_Exception (e : exn) : bool :=
  match e with SystemExit _ => false | _ => true end.

(** One categorized story: the dict with keys [id], [name], [description]. *)
Record story_entry := {
  story_id : string;
  story_name : json;
  story_description : json
}.

Inductive level := INFO | WARNING | ERROR.

(** A value substituted into a log message. *)
Inductive log_arg :=
| AStr (s : string)
| AInt (n : nat)
| AExn (e : exn)
| AStrs (l : list string)
| ACategories (c : gmap string (list story_entry)).

(** A log record: the level, the message as it is written in the source and
    the values of its placeholders, in order. *)
Record log_record := {
  levelname : level;
  msg : string;
  args : list log_arg
}.

Inductive outcome (A : Type) :=
| Ok (a : A)
| Raise (e : exn).
Arguments Ok {A} a.
Arguments Raise {A} e.

(** A computation of the script: it extends the log and returns or raises. *)
Definition M (A : Type) : Type := list log_record → outcome A * list log_record.

#[export] Instance M_ret : MRet M := λ A a l, (Ok a, l).

#[export] Instance M_bind : MBind M := λ A B f m l,
  match m l with
  | (Ok a, l') => f a l'
  | (Raise e, l') => (Raise e, l')
  end.

Definition raise {A} (e : exn) : M A := λ l, (Raise e, l).

Definition log (lvl : level) (msg : string) (args : list log_arg) : M unit :=
  λ l, (Ok (), l ++ [{| levelname := lvl; msg := msg; args := args |}]).

(** [try: body except <class> as e: handler e] *)
Definition try_except {A} (body : M A) (catches : exn → bool) (handler : exn → M A) : M A :=
  λ l, match body l with
       | (Raise e, l') => if catches e then handler e l' else (Raise e, l')
       | r => r
       end.

(** [sys.exit(code)] *)
Definition sys_exit {A} (code : Z) : M A := raise (SystemExit code).

(** [for x in xs: s = body x s] *)
Fixpoint for_each {A S} (xs : list A) (body : A → S → M S) (s : S) : M S :=
  match xs with
  | [] => mret s
  | x :: xs' => s' ← body x s; for_each xs' body s'
  end.

(** [subprocess.CompletedProcess]: the exit status and the captured
    standard output, as text. *)
Record CompletedProcess := {
  returncode : Z;
  stdout : string
}.

(** What [subprocess.run] meets when it captures the output as text: the
    program cannot be started (it is not installed, say), or it runs and
    what it prints, on standard output or on standard error, is not text in
    the encoding of the locale, or it runs and prints text. *)
Inductive run_result :=
| NotStarted
| Undecodable (returncode : Z)
| Completed (result : CompletedProcess).

(** What [requests.get] meets: no response at all, or a response with its
    status code and its body ([None] when the body is not JSON). *)
Inductive http_reply :=
| NoResponse
| Response (status_code : Z) (body : option json).

(** [set_order l] is the order in which this process iterates over the set
    built by adding the elements of [l] one after the other: it depends on
    the hashes of the strings, which change from one process to the next,
    and on the insertions. *)
Record world := {
  getenv : string → option string;
  run_command : list string → run_result;
  http_get : string → list (string * string) → http_reply;
  set_order : list string → list string
}.

(** [subprocess.run(cmd, capture_output=True, text=True, check=True)]: the
    output is decoded before the exit status is checked. *)
Definition subprocess_run (w : world) (cmd : list string) : M CompletedProcess :=
  match run_command w cmd with
  | NotStarted => raise OSError
  | Undecodable _ => raise UnicodeDecodeError
  | Completed result =>
      if (returncode result =? 0)%Z then mret result else raise CalledProcessError
  end.

(** [requests.get(url, headers=headers)] *)
Definition requests_get (w : world) (url : string) (headers : list (string * string))
  : M http_reply :=
  match http_get w url headers with
  | NoResponse => raise ConnectionError
  | r => mret r
  end.

(** [response.raise_for_status()]: [HTTPError] for a 4xx or 5xx status. *)
Definition raise_for_status (response : http_reply) : M unit :=
  match response with
  | Response status _ =>
      if ((400 <=? status) && (status <? 600))%Z then raise HTTPError else mret ()
  | NoResponse => mret ()
  end.

(** [response.json()] *)
Definition response_json (response : http_reply) : M json :=
  match response with
  | Response _ (Some j) => mret j
  | _ => raise JSONDecodeError
  end.

(** Look-up in the fields of a JSON object; of two fields with one key the
    later one counts. *)
Definition fields_get (fields : list (string * json)) (key : string) : option json :=
  fold_left (λ found '(k, v), if String.eqb k key then Some v else found) fields None.

(** [d.get(key, dflt)]; only a dict has [get]. *)
Definition py_get (d : json) (key : string) (dflt : json) : M json :=
  match d with
  | JObject fields => mret (default dflt (fields_get fields key))
  | _ => raise AttributeError
  end.

(** [v.lower()]; only a string has [lower]. *)
Definition py_lower (v : json) : M string :=
  match v with
  | JString s => mret (Py.lower s)
  | _ => raise AttributeError
  end.

(** [s.replace('sc-', '')] *)
Fixpoint remove_sc (s : string) : string :=
  match s with
  | String "s" (String "c" (String "-" t)) => remove_sc t
  | String c t => String c (remove_sc t)
  | EmptyString => EmptyString
  end.

(** [if s:] for an optional string: [None] and the empty string are false. *)
Definition truthy_str (s : option string) : bool :=
  match s with
  | Some (String _ _) => true
  | _ => false
  end.

(** ** The class [ReleaseHandler] *)

Record ReleaseHandler := {
  shortcut_token : string;
  shortcut_headers : list (string * string);
  shortcut_api_url : string
}.

Abbreviation categories_t := (gmap string (list story_entry)).

(** [ReleaseHandler.__init__] *)
Definition ReleaseHandler_init (w : world) : M ReleaseHandler :=
  let shortcut_token := getenv w "SHORTCUT_API_TOKEN" in
  if negb (truthy_str shortcut_token) then
    log ERROR "SHORTCUT_API_TOKEN environment variable is not set" [];;
    sys_exit 1
  else
    let token := default EmptyString shortcut_token in
    mret {| shortcut_token := token;
            shortcut_headers := [("Content-Type", "application/json");
                                 ("Shortcut-Token", token)];
            shortcut_api_url := "https://api.app.shortcut.com/api/v3" |}.

(** [git log] or [git tag], run inside [repo_path] when one is given. *)
Definition git_command (repo_path : option string) (arguments : list string) : list string :=
  if truthy_str repo_path
  then ["git"; "-C"; default EmptyString repo_path] ++ arguments
  else "git" :: arguments.

Definition get_commits_between_releases (w : world) (base head : string)
    (repo_path : option string) : M (list string) :=
  try_except
    (let cmd := git_command repo_path ["log"; base +:+ ".." +:+ head; "--format=%s"] in
     log INFO "Running command: {' '.join(cmd)}" [AStr (Py.join " " cmd)];;
     result ← subprocess_run w cmd;
     let commits := Py.split Py.newline (Py.strip (stdout result)) in
     log INFO "Found {len(commits)} commits between {base} and {head}"
         [AInt (length commits); AStr base; AStr head];;
     mret commits)
    is_CalledProcessError
    (λ e, log ERROR "Error getting commits: {e}" [AExn e];; mret []).

(** [list(set(l))]: the elements of [l] without repetition, in the order of
    the set in this process.  An order of the world that is not an
    arrangement of the elements of [l] is not taken. *)
Definition list_set (w : world) (l : list string) : list string :=
  let order := set_order w l in
  if bool_decide (NoDup order ∧ (list_to_set order : gset string) = list_to_set l)
  then order
  else elements (list_to_set l : gset string).

Definition extract_story_ids (w : world) (commit_messages : list string) : list string :=
  let story_ids :=
    fold_left
      (λ story_ids message,
         story_ids ++ map (λ group1, "SC-" +:+ group1) (Re.finditer (Py.lower message)))
      commit_messages [] in
  list_set w story_ids.

Definition get_story_details (w : world) (self : ReleaseHandler) (story_id : string)
  : M json :=
  try_except
    (let numeric_id := remove_sc (Py.lower story_id) in
     log INFO "Fetching story details for {story_id}" [AStr story_id];;
     response ← requests_get w (shortcut_api_url self +:+ "/stories/" +:+ numeric_id)
                              (shortcut_headers self);
     raise_for_status response;;
     response_json response)
    is_RequestException
    (λ e, log ERROR "Error fetching story {story_id}: {e}" [AStr story_id; AExn e];;
          mret (JObject [])).

Definition empty_categories : categories_t :=
  {[ "feature" := []; "bug" := []; "chore" := [] ]}.

(** The body of the loop of [categorize_stories]. *)
Definition categorize_story (w : world) (self : ReleaseHandler) (story_id : string)
    (categories : categories_t) : M categories_t :=
  story ← get_story_details w self story_id;
  story_type ← py_get story "story_type" (JString EmptyString) ≫= py_lower;
  match categories !! story_type with
  | Some bucket =>
      name ← py_get story "name" (JString EmptyString);
      description ← py_get story "description" (JString EmptyString);
      mret (<[story_type := bucket ++ [{| story_id := story_id;
                                          story_name := name;
                                          story_description := description |}]]>
              categories)
  | None => mret categories
  end.

Definition categorize_stories (w : world) (self : ReleaseHandler) (story_ids : list string)
  : M categories_t :=
  for_each story_ids (categorize_story w self) empty_categories.

(** [categories[key]] *)
Definition getitem (categories : categories_t) (key : string) : M (list story_entry) :=
  match categories !! key with
  | Some stories => mret stories
  | None => raise KeyError
  end.

Definition determine_version_bump (categories : categories_t) : M string :=
  feature ← getitem categories "feature";
  if Py.truthy feature then mret "minor"
  else
    bug ← getitem categories "bug";
    if Py.truthy bug then mret "patch"
    else mret "patch".

Section Notes.

(** [str(v)] of a decoded JSON value that is not a string (a number, a
    boolean, [None], a list or a dict); it is not modelled. *)
Variable py_str : json → string.

(** What an f-string substitutes for [{v}]. *)
Definition format_value (v : json) : string :=
  match v with
  | JString s => s
  | _ => py_str v
  end.

(** The bullet of one story. *)
Definition bullet (include_story_links : bool) (story : story_entry) : string :=
  if include_story_links then
    "- [" +:+ format_value (story_name story) +:+ "](https://app.shortcut.com/story/"
    +:+ Py.lower (story_id story) +:+ ")"
  else
    "- " +:+ format_value (story_name story).

(** One of the three blocks of [generate_release_notes]:
    [if categories[key]: notes.append(heading); for story in categories[key]: ...] *)
Definition append_section (categories : categories_t) (include_story_links : bool)
    (key heading : string) (notes : list string) : M (list string) :=
  stories ← getitem categories key;
  if Py.truthy stories then
    mret (fold_left (λ notes story, notes ++ [bullet include_story_links story])
                    stories (notes ++ [heading]))
  else mret notes.

(** The three headings, byte for byte as the literals of the source. *)
Definition heading_feature : string := "## ðŸš€ Features".
Definition heading_bug : string := String Py.newline "## ðŸ› Bug Fixes".
Definition heading_chore : string := String Py.newline "## ðŸ”§ Chores".

Definition generate_release_notes (categories : categories_t)
    (include_story_links : bool) : M string :=
  notes ← append_section categories include_story_links "feature" heading_feature [];
  notes ← append_section categories include_story_links "bug" heading_bug notes;
  notes ← append_section categories include_story_links "chore" heading_chore notes;
  mret (Py.join (String Py.newline EmptyString) notes).

End Notes.

Definition get_current_tag (w : world) (repo_path : option string) : M (option string) :=
  try_except
    (let cmd := git_command repo_path ["tag"; "--points-at"; "HEAD"] in
     log INFO "Running command: {' '.join(cmd)}" [AStr (Py.join " " cmd)];;
     result ← subprocess_run w cmd;
     let tags := Py.split Py.newline (Py.strip (stdout result)) in
     let version_tags := List.filter Re.match_version_tag tags in
     match version_tags with
     | tag :: _ =>
         log INFO "Found existing version tag at current commit: {version_tags[0]}"
             [AStr tag];;
         mret (Some tag)
     | [] => mret None
     end)
    is_CalledProcessError
    (λ e, log ERROR "Error checking current tags: {e}" [AExn e];; mret None).

(** ** The driver [main] *)

Record arguments := {
  prev_version : string;
  repo_path : option string;
  include_story_links : bool
}.

(** The dict that [main] serializes with [json.dumps] and prints. *)
Record output := {
  tag : string;
  release_notes : string
}.

(** [Version(s)] *)
Definition Version_of (s : string) : M SemVer.Version :=
  match SemVer.parse s with
  | Some v => mret v
  | None => raise ValueError
  end.

(** [getattr(version, f'next_{bump_type}')()] *)
Definition call_next (version : SemVer.Version) (bump_type : string) : M SemVer.Version :=
  if String.eqb bump_type "major" then mret (SemVer.next_major version)
  else if String.eqb bump_type "minor" then mret (SemVer.next_minor version)
  else if String.eqb bump_type "patch" then mret (SemVer.next_patch version)
  else raise AttributeError.

(** Lines 204-211 of [main]: the version of the tag on the current commit
    when there is one, the bumped previous version otherwise. *)
Definition resolve_version (prev_version : SemVer.Version) (categories : categories_t)
    (current_tag : option string) : M SemVer.Version :=
  if truthy_str current_tag then
    let current_tag := default EmptyString current_tag in
    log INFO "Reusing existing tag: {current_tag}" [AStr current_tag];;
    Version_of (Py.lstrip_char "v" current_tag)
  else
    bump_type ← determine_version_bump categories;
    new_version ← call_next prev_version bump_type;
    log INFO "New version: v{new_version} (bump type: {bump_type})"
        [AStr (SemVer.str new_version); AStr bump_type];;
    mret new_version.

(** The body of the [try] of [main], from the construction of the handler to
    the printed dict. *)
Definition main_body (py_str : json → string) (w : world) (args : arguments) : M output :=
  handler ← ReleaseHandler_init w;
  prev ← try_except
           (v ← Version_of (Py.lstrip_char "v" (prev_version args));
            log INFO "Using previous version: {args.prev_version}" [AStr (prev_version args)];;
            mret v)
           is_ValueError
           (λ e, log ERROR "Invalid version format: {args.prev_version}"
                     [AStr (prev_version args)];;
                 sys_exit 1);
  commit_messages ← get_commits_between_releases w (prev_version args) "HEAD" (repo_path args);
  log INFO "Commit messages: {commit_messages}" [AStrs commit_messages];;
  let story_ids := extract_story_ids w commit_messages in
  log INFO "Found story IDs: {story_ids}" [AStrs story_ids];;
  (if negb (Py.truthy story_ids)
   then log WARNING "No story IDs found in commit messages" []
   else mret ());;
  categories ← categorize_stories w handler story_ids;
  log INFO "Categorized stories: {json.dumps(categories, indent=2)}" [ACategories categories];;
  current_tag ← get_current_tag w (repo_path args);
  new_version ← resolve_version prev categories current_tag;
  release_notes ← generate_release_notes py_str categories (include_story_links args);
  log INFO "Generated release notes: {release_notes}" [AStr release_notes];;
  mret {| tag := "v" +:+ SemVer.str new_version; release_notes := release_notes |}.

(** [main]: any [Exception] of the body is logged and turned into
    [sys.exit(1)]; the result is the dict printed on standard output. *)
Definition main (py_str : json → string) (w : world) (args : arguments) : M output :=
  try_except (main_body py_str w args)
    is_Exception
    (λ e, log ERROR "Error in main: {e}" [AExn e];; sys_exit 1).

(** ** Vocabulary of the statements *)

(** *** Strings *)

Definition line_feed : string := String Py.newline EmptyString.

(** The first character of [s] is a decimal digit. *)
Definition starts_with_digit (s : string) : bool :=
  match Py.first_digit s with
  | Some _ => true
  | None => false
  end.

(** Every character of [s] is an ASCII character other than white space. *)
Fixpoint no_space (s : string) : bool :=
  match s with
  | EmptyString => true
  | String c t => (Py.code c <? 128)%N && negb (Py.is_space (Py.code c)) && no_space t
  end.

(** Every character of [s] is a digit of the range [[0-9]]. *)
Fixpoint ascii_number (s : string) : bool :=
  match s with
  | EmptyString => true
  | String c t => Py.is_digit c && ascii_number t
  end.

(** Every byte of [s] is a digit of the range [[0-9]] or a byte of a
    character outside ASCII: no ASCII letter, sign or white space. *)
Fixpoint digit_bytes (s : string) : bool :=
  match s with
  | EmptyString => true
  | String c t => (Py.is_digit c || (128 <=? Py.code c)%N) && digit_bytes t
  end.

(** The first [k] characters of [s] are all different from the letter [s]:
    no match of [sc-(\d+)] starts among them. *)
Fixpoint no_s_prefix (k : nat) (s : string) : Prop :=
  match k, s with
  | S k', String c t => c ≠ "s"%char ∧ no_s_prefix k' t
  | _, _ => True
  end.

(** *** Story ids *)

(** [ds] is the run of digits of an occurrence of [sc-<digits>] in [s]: the
    run is not empty and is not followed by a further digit. *)
Definition occurs_story (ds s : string) : Prop :=
  ∃ pre post, s = pre +:+ "sc-" +:+ ds +:+ post
              ∧ Py.isdigit ds = true ∧ starts_with_digit post = false.

(** The whole of [id] is [SC-] followed by one or more digits. *)
Definition is_story_id (id : string) : bool :=
  match id with
  | String "S" (String "C" (String "-" ds)) => Py.isdigit ds
  | _ => false
  end.

(** Two strings that differ in the case of their letters only. *)
Definition same_modulo_case (s1 s2 : string) : Prop := Py.lower s1 = Py.lower s2.

(** *** Computations *)

(** The value of a computation started on the empty log. *)
Definition value {A} (m : M A) : outcome A := fst (m []).

(** A computation that does not look at the log: it appends its own records
    to the log it is given, and its value does not depend on that log. *)
Definition oblivious {A} (m : M A) : Prop :=
  ∀ l, m l = (value m, l ++ snd (m [])).

(** *** Worlds and commands *)

(** The order of a set that only depends on its elements. *)
Definition sorted_order (l : list string) : list string :=
  elements (list_to_set l : gset string).

(** A world in which every subprocess ends like [result], the token is set
    and the API answers [reply] to every request. *)
Definition world_of (result : CompletedProcess) (reply : http_reply) : world :=
  {| getenv := λ _, Some "token";
     run_command := λ _, Completed result;
     http_get := λ _ _, reply;
     set_order := sorted_order |}.

(** The handler [ReleaseHandler()] builds when the token is [token]. *)
Definition handler_of (token : string) : ReleaseHandler :=
  {| shortcut_token := token;
     shortcut_headers := [("Content-Type", "application/json"); ("Shortcut-Token", token)];
     shortcut_api_url := "https://api.app.shortcut.com/api/v3" |}.

(** Worlds of the examples: [git] prints nothing and succeeds, or fails. *)
Definition world_git_silent : world :=
  world_of {| returncode := 0; stdout := EmptyString |} NoResponse.

Definition world_git_failed : world :=
  world_of {| returncode := 1; stdout := EmptyString |} NoResponse.

(** A world whose API answers every request with status 300 and the JSON of
    a feature story. *)
Definition login_story : json :=
  JObject [("story_type", JString "feature"); ("name", JString "Add login")].

Definition world_status_300 : world :=
  world_of {| returncode := 0; stdout := EmptyString |} (Response 300 (Some login_story)).

(** A world whose current commit bears the tag [v01.2.3]. *)
Definition world_tag_leading_zero : world :=
  world_of {| returncode := 0; stdout := "v01.2.3" +:+ line_feed |} NoResponse.

(** A world whose current commit bears the tags [v01.0.0] and [v1.0.0]. *)
Definition world_two_tags : world :=
  world_of {| returncode := 0;
              stdout := "v01.0.0" +:+ line_feed +:+ "v1.0.0" +:+ line_feed |} NoResponse.

(** A world in which [git] exits with status 128 and prints, on standard
    error, bytes that are not text. *)
Definition world_git_undecodable : world :=
  {| getenv := λ _, Some "token";
     run_command := λ _, Undecodable 128;
     http_get := λ _ _, NoResponse;
     set_order := sorted_order |}.


(** The world of the end-to-end scenario: two commits since the previous
    release, story 1 a feature and story 2 a bug, no tag on the current
    commit. *)
Definition world_two_stories : world :=
  {| getenv := λ _, Some "token";
     run_command := λ cmd,
       if bool_decide ("log" ∈ cmd)
       then Completed {| returncode := 0;
                         stdout := "Add feature sc-1" +:+ String Py.newline "Fix bug SC-2"
                                   +:+ String Py.newline EmptyString |}
       else Completed {| returncode := 0; stdout := EmptyString |};
     http_get := λ url _,
       if String.eqb url "https://api.app.shortcut.com/api/v3/stories/1"
       then Response 200 (Some (JObject [("story_type", JString "feature");
                                         ("name", JString "Add login")]))
       else Response 200 (Some (JObject [("story_type", JString "bug");
                                         ("name", JString "Crash on load")]));
     set_order := sorted_order |}.


(** A world without the token. *)
Definition world_no_token : world :=
  {| getenv := λ _, None;
     run_command := λ _, Completed {| returncode := 0; stdout := EmptyString |};
     http_get := λ _ _, NoResponse;
     set_order := sorted_order |}.

(** The [git log] command of [get_commits_between_releases]. *)
Definition log_command (base head : string) (repo_path : option string) : list string :=
  git_command repo_path ["log"; base +:+ ".." +:+ head; "--format=%s"].

(** The [git tag] command of [get_current_tag]. *)
Definition tag_command (repo_path : option string) : list string :=
  git_command repo_path ["tag"; "--points-at"; "HEAD"].

(** The URL [get_story_details] requests for a story id. *)
Definition story_url (self : ReleaseHandler) (story_id : string) : string :=
  shortcut_api_url self +:+ "/stories/" +:+ remove_sc (Py.lower story_id).

(** A status for which [raise_for_status] raises. *)
Definition error_status (status : Z) : Prop := (400 ≤ status < 600)%Z.

(** *** Stories and buckets *)

(** The category map with the given three buckets. *)
Definition categories_of (feature bug chore : list story_entry) : categories_t :=
  {[ "feature" := feature; "bug" := bug; "chore" := chore ]}.

Definition three_keys : gset string := {[ "feature"; "bug"; "chore" ]}.

(** The story [get_story_details] returns for an id in a world: the body of
    the response, or the empty dict when there is no response, the status is
    an error status or the body is not JSON. *)
Definition fetched (w : world) (self : ReleaseHandler) (story_id : string) : json :=
  match http_get w (story_url self story_id) (shortcut_headers self) with
  | Response status (Some story) =>
      if ((400 <=? status) && (status <? 600))%Z then JObject [] else story
  | _ => JObject []
  end.

(** What the loop of [categorize_stories] reads in a fetched story: its
    lower-cased type and the entry it would append.  [None] when the story is
    not a dict or its type is not a string. *)
Definition typed_entry (story_id : string) (story : json) : option (string * story_entry) :=
  match story with
  | JObject fields =>
      match default (JString EmptyString) (fields_get fields "story_type") with
      | JString story_type =>
          Some (Py.lower story_type,
                {| story_id := story_id;
                   story_name := default (JString EmptyString) (fields_get fields "name");
                   story_description :=
                     default (JString EmptyString) (fields_get fields "description") |})
      | _ => None
      end
  | _ => None
  end.

Definition typed_stories (w : world) (self : ReleaseHandler) (story_ids : list string)
  : option (list (string * story_entry)) :=
  mapM (λ story_id, typed_entry story_id (fetched w self story_id)) story_ids.

(** The entries of the stories of type [key], in the order of the stories. *)
Definition bucket (key : string) (stories : list (string * story_entry)) : list story_entry :=
  (filter (λ p, p.1 = key) stories).*2.

(** The category map of the example of the specification. *)
Definition crash_on_load : story_entry :=
  {| story_id := "SC-7"; story_name := JString "Crash on load";
     story_description := JString EmptyString |}.

(** *** Notes *)

(** The heading lines of the Bug Fixes and Chores sections without the line
    feed that starts them in the source. *)
Definition bug_title : string := "## ðŸ› Bug Fixes".
Definition chore_title : string := "## ðŸ”§ Chores".

(** The lines of one section: none when there is no story, else the heading
    and one bullet per story. *)
Definition section_lines (py_str : json → string) (include_story_links : bool)
    (heading : string) (stories : list story_entry) : list string :=
  if Py.truthy stories then heading :: map (bullet py_str include_story_links) stories
  else [].

(** The lines of the notes: Features, then Bug Fixes, then Chores. *)
Definition notes_lines (py_str : json → string) (include_story_links : bool)
    (feature bug chore : list story_entry) : list string :=
  section_lines py_str include_story_links heading_feature feature
  ++ section_lines py_str include_story_links heading_bug bug
  ++ section_lines py_str include_story_links heading_chore chore.

(** The rendering as the specification words it: a bullet is the name of
    the story, wrapped, with links, in a markdown link to the page of the
    story, whose address ends with the lower-cased id; a section is its
    heading followed by the bullets of its stories, and nothing at all when
    it has no story. *)
Definition name_text (py_str : json → string) (story : story_entry) : string :=
  match story_name story with
  | JString name => name
  | other => py_str other
  end.

Definition rendered_bullet (py_str : json → string) (links : bool) (story : story_entry)
  : string :=
  if links
  then "- [" +:+ name_text py_str story +:+ "](https://app.shortcut.com/story/"
       +:+ Py.lower (story_id story) +:+ ")"
  else "- " +:+ name_text py_str story.

Definition rendered_section (py_str : json → string) (links : bool) (heading : string)
    (stories : list story_entry) : list string :=
  match stories with
  | [] => []
  | _ :: _ => heading :: map (rendered_bullet py_str links) stories
  end.

(** The stories of the examples. *)
Definition add_login : story_entry :=
  {| story_id := "SC-42"; story_name := JString "Add login";
     story_description := JString EmptyString |}.

Definition bump_deps : story_entry :=
  {| story_id := "SC-8"; story_name := JString "Bump dependencies";
     story_description := JString EmptyString |}.

(** A rendering of the non-string values for the closed examples, none of
    which has a story with a non-string name. *)
Definition unnamed_str : json → string := λ _, "?".

(** *** Versions and tags *)

(** The tag [v<major>.<minor>.<patch>] of three numbers in decimal. *)
Definition version_tag (major minor patch : N) : string :=
  "v" +:+ Py.str_of_int major +:+ "." +:+ Py.str_of_int minor +:+ "." +:+ Py.str_of_int patch.

(** The command runs and what it prints is text. *)
Definition completes (w : world) (cmd : list string) : bool :=
  match run_command w cmd with
  | Completed _ => true
  | _ => false
  end.

(** The tag [get_current_tag] returns in a world: the first line of the
    output of [git tag] that matches the version pattern, if the command
    succeeds and there is one ([None] also when the function raises). *)
Definition current_tag_of (w : world) (repo_path : option string) : option string :=
  match run_command w (tag_command repo_path) with
  | Completed result =>
      if (returncode result =? 0)%Z then
        head (List.filter Re.match_version_tag
                (Py.split Py.newline (Py.strip (stdout result))))
      else None
  | _ => None
  end.

(** *** The run as a function of the world *)

(** The character [x] occurs in [s]. *)
Fixpoint contains (x : ascii) (s : string) : bool :=
  match s with
  | EmptyString => false
  | String c t => Ascii.eqb c x || contains x t
  end.

(** The commits [get_commits_between_releases] returns in a world: the
    lines of the stripped output of [git log] when it succeeds, none when it
    exits with another status (and none when the function raises). *)
Definition commits_of (w : world) (base head : string) (repo_path : option string)
  : list string :=
  match run_command w (log_command base head repo_path) with
  | Completed result =>
      if (returncode result =? 0)%Z then Py.split Py.newline (Py.strip (stdout result))
      else []
  | _ => []
  end.

(** The lines of a text once stripped. *)
Definition lines_of (text : string) : list string :=
  Py.split Py.newline (Py.strip text).


(** The entries of the stories of a recognised type, in the order of the
    stories. *)
Definition recognised (stories : list (string * story_entry)) : list story_entry :=
  (filter (λ p, p.1 ∈ three_keys) stories).*2.

(** Two entries that give the same bullet: the same name and, when the
    bullets are links, the same id up to the case of its letters. *)
Definition same_bullet_data (include_story_links : bool) (s1 s2 : story_entry) : Prop :=
  story_name s1 = story_name s2
  ∧ (include_story_links = true → Py.lower (story_id s1) = Py.lower (story_id s2)).

(** The version [resolve_version] returns without a tag on the current
    commit. *)
Definition bumped (prev : SemVer.Version) (feature : list story_entry) : SemVer.Version :=
  if Py.truthy feature then SemVer.next_minor prev else SemVer.next_patch prev.

(** The result of [main] in a world, without the log: the printed dict, or
    the exit with status 1. *)
Definition main_result (py_str : json → string) (w : world) (args : arguments)
  : outcome output :=
  let token := getenv w "SHORTCUT_API_TOKEN" in
  if negb (truthy_str token) then Raise (SystemExit 1) else
  match SemVer.parse (Py.lstrip_char "v" (prev_version args)) with
  | None => Raise (SystemExit 1)
  | Some prev =>
      if negb (completes w (log_command (prev_version args) "HEAD" (repo_path args))
               && completes w (tag_command (repo_path args)))
      then Raise (SystemExit 1) else
      let commits := commits_of w (prev_version args) "HEAD" (repo_path args) in
      match typed_stories w (handler_of (default EmptyString token))
                          (extract_story_ids w commits) with
      | None => Raise (SystemExit 1)
      | Some stories =>
          let new_version :=
            match current_tag_of w (repo_path args) with
            | Some tag => SemVer.parse (Py.lstrip_char "v" tag)
            | None => Some (bumped prev (bucket "feature" stories))
            end in
          match new_version with
          | None => Raise (SystemExit 1)
          | Some version =>
              Ok {| tag := "v" +:+ SemVer.str version;
                    release_notes :=
                      Py.join line_feed
                        (notes_lines py_str (include_story_links args)
                           (bucket "feature" stories) (bucket "bug" stories)
                           (bucket "chore" stories)) |}
          end
      end
  end.

(** The last record of a log is an error record. *)
Definition ends_with_error (l : list log_record) : Prop :=
  ∃ record, last l = Some record ∧ levelname record = ERROR.

(** A computation that lets no exit pass other than an exit with status 1
    whose last log record is an error record. *)
Definition exits_logged {A} (m : M A) : Prop :=
  ∀ l e l', m l = (Raise e, l') →
            is_Exception e = true ∨ (e = SystemExit 1 ∧ ends_with_error l').

(** The tag of a result of [main]. *)
Definition tag_of (result : outcome output) : outcome string :=
  match result with
  | Ok out => Ok (tag out)
  | Raise e => Raise e
  end.

(** The error records of the two early exits of [main]. *)
Definition token_not_set : log_record :=
  {| levelname := ERROR; msg := "SHORTCUT_API_TOKEN environment variable is not set";
     args := [] |}.

Definition invalid_version_format (text : string) : log_record :=
  {| levelname := ERROR; msg := "Invalid version format: {args.prev_version}";
     args := [AStr text] |}.

(** A world with one commit that mentions a story whose [story_type] is
    JSON null. *)
Definition world_null_type : world :=
  world_of {| returncode := 0; stdout := "fix sc-1" |}
           (Response 200 (Some (JObject [("story_type", JNull)]))).


(** The world of the end-to-end scenario once the current commit bears the
    tag [v1.1.0]. *)
Definition world_two_stories_tagged : world :=
  {| getenv := getenv world_two_stories;
     run_command := λ cmd,
       if bool_decide ("tag" ∈ cmd)
       then Completed {| returncode := 0; stdout := "v1.1.0" +:+ line_feed |}
       else run_command world_two_stories cmd;
     http_get := http_get world_two_stories;
     set_order := reverse |}.

(** * Facts about the string primitives *)

#[local] Arguments String.append !_ _ / : simpl nomatch.

Lemma append_nil_r (s : string) : s +:+ EmptyString = s.
Proof. induction s as [|c s IH]; simpl; [done | by f_equal]. Qed.

Lemma append_assoc (s1 s2 s3 : string) : (s1 +:+ s2) +:+ s3 = s1 +:+ (s2 +:+ s3).
Proof. induction s1 as [|c s1 IH]; simpl; [done | by f_equal]. Qed.

Lemma length_append (s1 s2 : string) :
  String.length (s1 +:+ s2) = String.length s1 + String.length s2.
Proof. induction s1 as [|c s1 IH]; simpl; [done | by rewrite IH]. Qed.

Lemma is_empty_length (s : string) : Py.is_empty s = false → 0 < String.length s.
Proof. destruct s; simpl; [done | lia]. Qed.

(** Induction on a string with the hypothesis for every shorter string. *)
Lemma string_length_ind (P : string → Prop) :
  (∀ s, (∀ t, String.length t < String.length s → P t) → P s) → ∀ s, P s.
Proof.
  intros Hstep s. remember (String.length s) as n eqn:Hn. revert s Hn.
  induction n as [n IH] using lt_wf_ind. intros s ->.
  apply Hstep. intros t Ht. by apply (IH (String.length t)).
Qed.

(** ** Characters *)

Lemma digit_bytes_app (s1 s2 : string) :
  digit_bytes (s1 +:+ s2) = digit_bytes s1 && digit_bytes s2.
Proof. induction s1 as [|c s1 IH]; simpl; [done|]. by rewrite IH, andb_assoc. Qed.

(** The first character of a string is a prefix of it that is not empty, and
    it does not depend on what follows; it is one ASCII byte, or bytes none
    of which is ASCII. *)
Lemma first_char_Some (s : string) (cp : N) (char rest : string) :
  Py.first_char s = Some (cp, char, rest) →
  s = char +:+ rest
  ∧ Py.is_empty char = false
  ∧ (∀ r, Py.first_char (char +:+ r) = Some (cp, char, r))
  ∧ ((cp < 128)%N ∧ (∃ c, char = String c EmptyString ∧ Py.code c = cp)
     ∨ (128 ≤ cp)%N ∧ digit_bytes char = true).
Proof.
  unfold Py.first_char. destruct s as [|b0 t0]; [done|].
  destruct (Py.code b0 <? 128)%N eqn:H0.
  { intros [= <- <- <-]. repeat split.
    - intros r. simpl. by rewrite H0.
    - left. apply N.ltb_lt in H0. split; [done|]. by exists b0. }
  assert ((128 <=? Py.code b0)%N = true) as Hb0.
  { apply N.leb_le. apply N.ltb_ge in H0. lia. }
  destruct t0 as [|b1 t1]; [done|].
  destruct (Py.code b0 <? 224)%N eqn:H1.
  { destruct (_ && _) eqn:Hc; [|done]. intros [= <- <- <-].
    apply andb_true_iff in Hc as [[Hlead Hc1]%andb_true_iff Hcp].
    repeat split.
    - intros r. simpl. by rewrite H0, H1, Hlead, Hc1, Hcp.
    - right. apply N.leb_le in Hcp. split; [done|]. simpl.
      apply andb_true_iff in Hc1 as [-> _]. by rewrite Hb0, !orb_true_r. }
  destruct t1 as [|b2 t2]; [done|].
  destruct (Py.code b0 <? 240)%N eqn:H2.
  { destruct (_ && _) eqn:Hc; [|done]. intros [= <- <- <-].
    pose proof Hc as Hc'.
    apply andb_true_iff in Hc' as [[[Hc1 Hc2]%andb_true_iff Hcp]%andb_true_iff _].
    repeat split.
    - intros r. simpl. by rewrite H0, H1, H2, Hc.
    - right. apply N.leb_le in Hcp. split; [lia|]. simpl.
      apply andb_true_iff in Hc1 as [-> _]. apply andb_true_iff in Hc2 as [-> _].
      by rewrite Hb0, !orb_true_r. }
  destruct t2 as [|b3 t3]; [done|].
  destruct (_ && _) eqn:Hc; [|done]. intros [= <- <- <-].
  pose proof Hc as Hc'.
  apply andb_true_iff in Hc' as
      [[[[Hc1 Hc2]%andb_true_iff Hc3]%andb_true_iff Hcp]%andb_true_iff _].
  repeat split.
  - intros r. simpl. by rewrite H0, H1, H2, Hc.
  - right. apply N.leb_le in Hcp. split; [lia|]. simpl.
    apply andb_true_iff in Hc1 as [-> _]. apply andb_true_iff in Hc2 as [-> _].
    apply andb_true_iff in Hc3 as [-> _].
    by rewrite Hb0, !orb_true_r.
Qed.

Lemma first_char_ascii (c : ascii) (t : string) :
  (Py.code c < 128)%N → Py.first_char (String c t) = Some (Py.code c, String c EmptyString, t).
Proof. intros H%N.ltb_lt. unfold Py.first_char. by rewrite H. Qed.

(** ** Decimal digits *)

Lemma decimal_zeros_ascii :
  Forall (λ zero, zero = 48 ∨ 1632 ≤ zero)%N Py.decimal_zeros.
Proof. unfold Py.decimal_zeros. repeat (constructor; [lia|]). constructor. Qed.

(** The only decimal digits of ASCII are the ten of [[0-9]]. *)
Lemma decimal_value_ascii (cp digit : N) :
  Py.decimal_value cp = Some digit → (cp < 128)%N →
  (48 ≤ cp ≤ 57)%N ∧ digit = (cp - 48)%N.
Proof.
  unfold Py.decimal_value.
  destruct (List.find _ _) as [zero|] eqn:Hfind; [|done].
  apply find_some in Hfind as [Hin [H1%N.leb_le H2%N.ltb_lt]%andb_true_iff].
  intros [= <-] Hcp.
  pose proof decimal_zeros_ascii as Hzeros.
  rewrite Forall_forall in Hzeros. apply list_elem_of_In, Hzeros in Hin.
  destruct Hin as [->|Hz]; lia.
Qed.

Lemma decimal_value_range (cp : N) :
  (48 ≤ cp ≤ 57)%N → Py.decimal_value cp = Some (cp - 48)%N.
Proof.
  intros [H1 H2]. unfold Py.decimal_value, Py.decimal_zeros.
  cbn [List.find].
  assert ((48 <=? cp)%N && (cp <? 48 + 10)%N = true) as ->; [|done].
  apply andb_true_iff. split; [by apply N.leb_le | apply N.ltb_lt; lia].
Qed.

Lemma is_digit_range (c : ascii) : Py.is_digit c = true ↔ (48 ≤ Py.code c ≤ 57)%N.
Proof. unfold Py.is_digit. rewrite andb_true_iff, !N.leb_le. done. Qed.

(** A decimal digit at the head of a string: it is a prefix that is not
    empty, it does not depend on what follows, and its bytes are a digit of
    [[0-9]] or bytes outside ASCII. *)
Lemma first_digit_Some (s : string) (digit : N) (char rest : string) :
  Py.first_digit s = Some (digit, char, rest) →
  s = char +:+ rest
  ∧ Py.is_empty char = false
  ∧ (∀ r, Py.first_digit (char +:+ r) = Some (digit, char, r))
  ∧ digit_bytes char = true.
Proof.
  unfold Py.first_digit.
  destruct (Py.first_char s) as [[[cp char'] rest']|] eqn:Hchar; [|done].
  destruct (Py.decimal_value cp) as [digit'|] eqn:Hvalue; [|done].
  intros [= <- <- <-].
  destruct (first_char_Some _ _ _ _ Hchar) as (Hs & Hne & Hprefix & Hbytes).
  repeat split; try done.
  - intros r. by rewrite Hprefix, Hvalue.
  - destruct Hbytes as [[Hcp (c & -> & Hc)]|[_ Hhigh]]; [|done].
    destruct (decimal_value_ascii _ _ Hvalue Hcp) as [Hrange _].
    simpl. rewrite <- Hc in Hrange. apply is_digit_range in Hrange. by rewrite Hrange.
Qed.

Lemma first_digit_ascii (c : ascii) (t : string) :
  Py.is_digit c = true →
  Py.first_digit (String c t) = Some ((Py.code c - 48)%N, String c EmptyString, t).
Proof.
  intros Hc%is_digit_range. unfold Py.first_digit.
  rewrite first_char_ascii by lia. by rewrite decimal_value_range.
Qed.

(** An ASCII character that is not of [[0-9]] is no decimal digit. *)
Lemma first_digit_not_digit (c : ascii) (t : string) :
  (Py.code c < 128)%N → Py.is_digit c = false → Py.first_digit (String c t) = None.
Proof.
  intros Hc Hd. unfold Py.first_digit. rewrite first_char_ascii by done.
  destruct (Py.decimal_value (Py.code c)) as [digit|] eqn:Hvalue; [|done].
  destruct (decimal_value_ascii _ _ Hvalue Hc) as [Hrange%is_digit_range _]. congruence.
Qed.

Lemma span_digits_upto_enough (n m : nat) (s : string) :
  String.length s ≤ n → String.length s ≤ m →
  Py.span_digits_upto n s = Py.span_digits_upto m s.
Proof.
  revert m s. induction n as [|n IH]; intros m s Hn Hm.
  - destruct s; [|simpl in Hn; lia]. by destruct m.
  - destruct m as [|m].
    + destruct s; [done | simpl in Hm; lia].
    + simpl. destruct (Py.first_digit s) as [[[digit char] rest]|] eqn:Hd; [|done].
      destruct (first_digit_Some _ _ _ _ Hd) as (-> & Hne%is_empty_length & _).
      rewrite length_append in Hn, Hm. rewrite (IH m rest); [done | lia..].
Qed.

(** The equation of [span_digits]. *)
Lemma span_digits_eq (s : string) :
  Py.span_digits s =
  match Py.first_digit s with
  | Some (_, char, rest) => let '(ds, r) := Py.span_digits rest in (char +:+ ds, r)
  | None => (EmptyString, s)
  end.
Proof.
  unfold Py.span_digits. destruct s as [|c t]; [done|].
  change (String.length (String c t)) with (S (String.length t)).
  cbn [Py.span_digits_upto].
  destruct (Py.first_digit (String c t)) as [[[digit char] rest]|] eqn:Hd; [|done].
  destruct (first_digit_Some _ _ _ _ Hd) as (Hs & Hne%is_empty_length & _).
  apply (f_equal String.length) in Hs. rewrite length_append in Hs. simpl in Hs.
  rewrite (span_digits_upto_enough (String.length t) (String.length rest)); [done | lia..].
Qed.

Lemma all_digits_span (ds : string) :
  Py.all_digits ds = true → Py.span_digits ds = (ds, EmptyString).
Proof.
  induction ds as [ds IH] using string_length_ind.
  unfold Py.all_digits. rewrite span_digits_eq.
  destruct (Py.first_digit ds) as [[[digit char] rest]|] eqn:Hd.
  - destruct (first_digit_Some _ _ _ _ Hd) as (-> & Hne%is_empty_length & _).
    destruct (Py.span_digits rest) as [ds' r'] eqn:Hrest. simpl. intros Hr.
    rewrite IH in Hrest.
    + by simplify_eq.
    + rewrite length_append. lia.
    + unfold Py.all_digits. by rewrite Hrest.
  - simpl. by destruct ds.
Qed.

Lemma span_digits_sound (s ds r : string) :
  Py.span_digits s = (ds, r) →
  s = ds +:+ r ∧ Py.all_digits ds = true ∧ starts_with_digit r = false.
Proof.
  revert ds r. induction s as [s IH] using string_length_ind. intros ds r.
  rewrite span_digits_eq. unfold starts_with_digit.
  destruct (Py.first_digit s) as [[[digit char] rest]|] eqn:Hd.
  - destruct (first_digit_Some _ _ _ _ Hd) as (-> & Hne%is_empty_length & Hprefix & _).
    destruct (Py.span_digits rest) as [ds' r'] eqn:Hrest. intros [= <- <-].
    destruct (IH rest) with (ds := ds') (r := r') as (-> & Hds & Hr);
      [rewrite length_append; lia | done |].
    split; [by rewrite append_assoc|]. split; [|done].
    unfold Py.all_digits. rewrite span_digits_eq, Hprefix.
    by rewrite (all_digits_span _ Hds).
  - intros [= <- <-]. by rewrite Hd.
Qed.

Lemma span_digits_app (ds r : string) :
  Py.all_digits ds = true → starts_with_digit r = false →
  Py.span_digits (ds +:+ r) = (ds, r).
Proof.
  intros Hd Hr. induction ds as [ds IH] using string_length_ind.
  pose proof (all_digits_span _ Hd) as Hspan. rewrite span_digits_eq in Hspan.
  destruct (Py.first_digit ds) as [[[digit char] rest]|] eqn:Hfirst.
  - destruct (first_digit_Some _ _ _ _ Hfirst) as (-> & Hne%is_empty_length & Hprefix & _).
    destruct (Py.span_digits rest) as [ds' r'] eqn:Hrest.
    assert (Py.all_digits rest = true) as Hall.
    { unfold Py.all_digits. rewrite Hrest. by simplify_eq. }
    rewrite append_assoc, span_digits_eq, Hprefix, IH; [done | | done].
    rewrite length_append. lia.
  - injection Hspan as <-. simpl. rewrite span_digits_eq.
    unfold starts_with_digit in Hr. by destruct (Py.first_digit r).
Qed.

Lemma all_digits_nil : Py.all_digits EmptyString = true.
Proof. done. Qed.

(** The bytes of a string of decimal digits. *)
Lemma all_digits_bytes (ds : string) : Py.all_digits ds = true → digit_bytes ds = true.
Proof.
  induction ds as [ds IH] using string_length_ind. intros Hd.
  pose proof (all_digits_span _ Hd) as Hspan. rewrite span_digits_eq in Hspan.
  destruct (Py.first_digit ds) as [[[digit char] rest]|] eqn:Hfirst.
  - destruct (first_digit_Some _ _ _ _ Hfirst) as (-> & Hne%is_empty_length & _ & Hbytes).
    destruct (Py.span_digits rest) as [ds' r'] eqn:Hrest.
    rewrite digit_bytes_app, Hbytes. apply IH.
    + rewrite length_append. lia.
    + unfold Py.all_digits. rewrite Hrest. by simplify_eq.
  - by injection Hspan as <-.
Qed.

(** Digits of the range [[0-9]] are decimal digits. *)
Lemma ascii_number_all_digits (ds : string) :
  ascii_number ds = true → Py.all_digits ds = true.
Proof.
  induction ds as [|c ds IH]; [done|]. simpl. intros [Hc Hds]%andb_true_iff.
  unfold Py.all_digits. rewrite span_digits_eq, (first_digit_ascii _ _ Hc).
  specialize (IH Hds). unfold Py.all_digits in IH.
  by destruct (Py.span_digits ds).
Qed.

Lemma span_ascii_digits_sound (s ds r : string) :
  Py.span_ascii_digits s = (ds, r) → s = ds +:+ r ∧ ascii_number ds = true.
Proof.
  revert ds r. induction s as [|c s IH]; simpl; intros ds r H.
  - by inversion H.
  - destruct (Py.is_digit c) eqn:Hc.
    + destruct (Py.span_ascii_digits s) as [ds' r'] eqn:Hs. inversion H; subst.
      destruct (IH _ _ eq_refl) as (-> & Hd). simpl. by rewrite Hc.
    + by inversion H.
Qed.

Lemma span_ascii_digits_app (ds r : string) :
  ascii_number ds = true → starts_with_digit r = false →
  Py.span_ascii_digits (ds +:+ r) = (ds, r).
Proof.
  intros Hd Hr. induction ds as [|c ds IH]; simpl in *.
  - destruct r as [|c r]; simpl in *; [done|].
    destruct (Py.is_digit c) eqn:Hc; [|done].
    unfold starts_with_digit in Hr. by rewrite (first_digit_ascii _ _ Hc) in Hr.
  - apply andb_true_iff in Hd as [Hc Hd]. by rewrite Hc, (IH Hd).
Qed.

(** ** The pattern of story ids *)

Lemma finditer_from_skip (s : string) (k : nat) :
  no_s_prefix k s → Re.finditer_from k s = Re.finditer_from 0 s.
Proof.
  revert k. induction s as [|c s IH]; intros [|k]; simpl; try done.
  intros [Hc Hk]. rewrite (IH _ Hk).
  destruct c as [[] [] [] [] [] [] [] []]; try done.
Qed.

Lemma digit_bytes_no_s (ds r : string) :
  digit_bytes ds = true → no_s_prefix (String.length ds) (ds +:+ r).
Proof.
  induction ds as [|c ds IH]; simpl; [done |].
  intros [Hc Hd]%andb_true_iff. split; [| by apply IH].
  intros ->. done.
Qed.

Lemma match_story_at_Some (s g : string) (n : nat) :
  Re.match_story_at s = Some (g, n) →
  ∃ r, s = "sc-" +:+ g +:+ r ∧ Py.isdigit g = true ∧ starts_with_digit r = false
       ∧ n = 3 + String.length g.
Proof.
  unfold Re.match_story_at.
  destruct s as [|c0 [|c1 [|c2 t]]]; try (by repeat case_match).
  destruct (Py.span_digits t) as [ds r] eqn:Hs.
  intros H. repeat case_match; simplify_eq.
  destruct (span_digits_sound _ _ _ Hs) as (-> & Hd & Hr).
  exists r. unfold Py.isdigit. repeat split; try done.
  destruct g; done.
Qed.

Lemma match_story_at_story (ds r : string) :
  Py.isdigit ds = true → starts_with_digit r = false →
  Re.match_story_at (String "s" ("c-" +:+ ds +:+ r)) = Some (ds, 3 + String.length ds).
Proof.
  intros [Hne Hd]%andb_true_iff Hr. unfold Re.match_story_at. simpl.
  rewrite (span_digits_app _ _ Hd Hr). by destruct ds.
Qed.

Lemma finditer_cons (c : ascii) (t : string) :
  Re.finditer (String c t) =
  match Re.match_story_at (String c t) with
  | Some (g, _) => g :: Re.finditer t
  | None => Re.finditer t
  end.
Proof.
  unfold Re.finditer.
  change (Re.finditer_from 0 (String c t))
    with (match Re.match_story_at (String c t) with
          | Some (g, n) => g :: Re.finditer_from (Nat.pred n) t
          | None => Re.finditer_from 0 t
          end).
  destruct (Re.match_story_at (String c t)) as [[g n]|] eqn:Hm; [|done].
  destruct (match_story_at_Some _ _ _ Hm) as (r & Hs & Hg & Hr & ->).
  f_equal. apply finditer_from_skip.
  simpl in Hs. inversion Hs; subst. simpl.
  split; [done|]. split; [done|].
  apply digit_bytes_no_s, all_digits_bytes. by apply andb_true_iff in Hg as [_ ?].
Qed.

Lemma finditer_spec (ds s : string) : ds ∈ Re.finditer s ↔ occurs_story ds s.
Proof.
  split.
  - induction s as [|c t IH]; [by intros ?%elem_of_nil|].
    rewrite finditer_cons.
    assert (ds ∈ Re.finditer t → occurs_story ds (String c t)) as Htail.
    { intros (pre & post & -> & ?)%IH. by exists (String c pre), post. }
    destruct (Re.match_story_at (String c t)) as [[g n]|] eqn:Hm; [|done].
    intros [->|Hin]%elem_of_cons; [|by apply Htail].
    destruct (match_story_at_Some _ _ _ Hm) as (r & Hs & Hg & Hr & _).
    by exists EmptyString, r.
  - intros (pre & post & -> & Hd & Hp).
    induction pre as [|c pre IH].
    + change (EmptyString +:+ "sc-" +:+ ds +:+ post) with (String "s" ("c-" +:+ ds +:+ post)).
      rewrite finditer_cons, (match_story_at_story _ _ Hd Hp). by left.
    + change (String c pre +:+ "sc-" +:+ ds +:+ post)
        with (String c (pre +:+ "sc-" +:+ ds +:+ post)).
      rewrite finditer_cons. repeat case_match; [right|]; apply IH.
Qed.

Lemma fold_left_extend {A B} (f : A → list B) (xs : list A) (acc : list B) :
  fold_left (λ acc x, acc ++ f x) xs acc = acc ++ concat (map f xs).
Proof.
  revert acc. induction xs as [|x xs IH]; intros acc; simpl.
  - by rewrite app_nil_r.
  - by rewrite IH, app_assoc.
Qed.

(** ** The list of a set *)

Lemma list_set_cases (w : world) (l : list string) :
  NoDup (list_set w l) ∧ (list_to_set (list_set w l) : gset string) = list_to_set l.
Proof.
  unfold list_set. case_bool_decide as Horder; [done|].
  split; [apply NoDup_elements|]. apply set_eq. intros x.
  by rewrite !elem_of_list_to_set, elem_of_elements, elem_of_list_to_set.
Qed.

Lemma elem_of_list_set (w : world) (x : string) (l : list string) :
  x ∈ list_set w l ↔ x ∈ l.
Proof.
  destruct (list_set_cases w l) as [_ Hset].
  by rewrite <- (elem_of_list_to_set (C := gset string) x (list_set w l)), Hset,
    elem_of_list_to_set.
Qed.

Lemma NoDup_list_set (w : world) (l : list string) : NoDup (list_set w l).
Proof. apply list_set_cases. Qed.

(** The order of the set is the only difference between two processes. *)
Lemma list_set_Permutation (w w' : world) (l : list string) :
  list_set w' l ≡ₚ list_set w l.
Proof.
  apply NoDup_Permutation; [apply NoDup_list_set..|].
  intros x. by rewrite !elem_of_list_set.
Qed.

Lemma list_set_nil (w : world) : list_set w [] = [].
Proof.
  destruct (list_set w []) as [|x l] eqn:Hl; [done|].
  assert (x ∈ list_set w []) as Hx by (rewrite Hl; left).
  apply elem_of_list_set in Hx. by apply elem_of_nil in Hx.
Qed.

Lemma list_set_singleton (w : world) (x : string) : list_set w [x] = [x].
Proof.
  apply Permutation_singleton_r.
  apply NoDup_Permutation; [apply NoDup_list_set | apply NoDup_singleton |].
  intros y. by rewrite elem_of_list_set.
Qed.

Lemma elem_of_extract_story_ids (w : world) (id : string) (commit_messages : list string) :
  id ∈ extract_story_ids w commit_messages ↔
  ∃ message ds, message ∈ commit_messages ∧ id = "SC-" +:+ ds
                ∧ occurs_story ds (Py.lower message).
Proof.
  unfold extract_story_ids. rewrite elem_of_list_set, fold_left_extend. simpl.
  rewrite list_elem_of_In, in_concat. split.
  - intros (l & Hl & Hid). apply in_map_iff in Hl as (message & <- & Hm).
    apply in_map_iff in Hid as (ds & <- & Hds).
    exists message, ds. rewrite <- !list_elem_of_In in *. by rewrite <- finditer_spec.
  - intros (message & ds & Hm & -> & Hds).
    exists (map (λ g, "SC-" +:+ g) (Re.finditer (Py.lower message))). split.
    + apply in_map_iff. exists message. by rewrite <- list_elem_of_In.
    + apply in_map_iff. exists ds. by rewrite <- list_elem_of_In, finditer_spec.
Qed.

(** * Story ids in commit subjects *)

Lemma extract_story_ids_lower (w : world) (commit_messages : list string) :
  extract_story_ids w commit_messages =
  list_set w (concat (map (λ message, map (String.append "SC-") (Re.finditer message))
                          (map Py.lower commit_messages))).
Proof.
  unfold extract_story_ids. rewrite fold_left_extend. simpl. by rewrite map_map.
Qed.

(** C5: for every sequence of commit subjects, in every process,
    [extract_story_ids] returns a list without repetition, each id in it is
    [SC-] followed by one or more decimal digits, and an id is returned
    exactly when some subject, once lower-cased, contains an occurrence
    [sc-<digits>] with these digits, the run of digits taken as long as it
    goes; so every occurrence counts, also several in one subject: from the
    subject [Fix SC-12, sc-7 and Sc-12] the ids are [SC-12] and [SC-7], and
    digits of another script count as well. *)
Theorem extract_story_ids_spec (w : world) (commit_messages : list string) :
  NoDup (extract_story_ids w commit_messages)
  ∧ Forall (λ id, is_story_id id = true) (extract_story_ids w commit_messages)
  ∧ (∀ id, id ∈ extract_story_ids w commit_messages ↔
           ∃ message ds, message ∈ commit_messages ∧ id = "SC-" +:+ ds
                         ∧ occurs_story ds (Py.lower message))
  ∧ extract_story_ids w ["Fix SC-12, sc-7 and Sc-12"] ≡ₚ ["SC-12"; "SC-7"]
  ∧ extract_story_ids w ["sc-12a sc-1٢"] ≡ₚ ["SC-12"; "SC-1٢"].
Proof.
  split; [apply NoDup_list_set|].
  split; [|split; [intros id; apply elem_of_extract_story_ids|]].
  - apply Forall_forall. intros id Hin.
    apply elem_of_extract_story_ids in Hin as (message & ds & _ & -> & (_ & _ & _ & Hd & _)).
    exact Hd.
  - split.
    + rewrite extract_story_ids_lower.
      assert (concat (map (λ message, map (String.append "SC-") (Re.finditer message))
                          (map Py.lower ["Fix SC-12, sc-7 and Sc-12"]))
              = ["SC-12"; "SC-7"; "SC-12"]) as -> by (by vm_compute).
      apply NoDup_Permutation; [apply NoDup_list_set | by apply (bool_decide_unpack _) |].
      intros id. rewrite elem_of_list_set, !elem_of_cons, elem_of_nil. tauto.
    + rewrite extract_story_ids_lower.
      assert (concat (map (λ message, map (String.append "SC-") (Re.finditer message))
                          (map Py.lower ["sc-12a sc-1٢"]))
              = ["SC-12"; "SC-1٢"]) as -> by (by vm_compute).
      apply NoDup_Permutation; [apply NoDup_list_set | by apply (bool_decide_unpack _) |].
      intros id. by rewrite elem_of_list_set.
Qed.

Example extract_story_ids_two_in_one_subject :
  list_to_set (extract_story_ids world_git_silent
                 ["sc-1 then SC-22, sc-1 again"; "no id"; "Sc-22"])
  = ({[ "SC-1"; "SC-22" ]} : gset string).
Proof. by vm_compute. Qed.

Lemma map_lower_same_modulo_case (messages1 messages2 : list string) :
  Forall2 same_modulo_case messages1 messages2 →
  map Py.lower messages1 = map Py.lower messages2.
Proof.
  induction 1 as [|m1 m2 l1 l2 Hm _ IH]; simpl; [done|]. by rewrite Hm, IH.
Qed.

(** C6: two lists of commit subjects that differ in the case of their letters
    only have the same extracted ids. *)
Theorem extract_story_ids_case_insensitive (w : world) (messages1 messages2 : list string) :
  Forall2 same_modulo_case messages1 messages2 →
  extract_story_ids w messages1 = extract_story_ids w messages2.
Proof.
  intros H. rewrite !extract_story_ids_lower.
  by rewrite (map_lower_same_modulo_case _ _ H).
Qed.

Lemma extract_story_ids_case_insensitive_witness :
  Forall2 same_modulo_case ["fix SC-12"] ["fix sc-12"]
  ∧ extract_story_ids world_git_silent ["fix SC-12"]
    = extract_story_ids world_git_silent ["fix sc-12"].
Proof.
  split.
  - repeat constructor.
  - apply extract_story_ids_case_insensitive. repeat constructor.
Defined.

Example extract_story_ids_fix_sc_12 :
  extract_story_ids world_git_silent ["fix SC-12"] = ["SC-12"]
  ∧ extract_story_ids world_git_silent ["fix sc-12"] = ["SC-12"].
Proof. by vm_compute. Qed.

Lemma lower_upper (s : string) : Py.lower (Py.upper s) = Py.lower s.
Proof.
  induction s as [|c s IH]; simpl; [done|]. rewrite IH. f_equal.
  by destruct c as [[] [] [] [] [] [] [] []].
Qed.

Lemma extract_story_ids_upper (w : world) (commit_messages : list string) :
  extract_story_ids w (map Py.upper commit_messages) = extract_story_ids w commit_messages.
Proof.
  rewrite !extract_story_ids_lower. do 3 f_equal.
  rewrite map_map. apply map_ext. intros message. apply lower_upper.
Qed.

(** * Computations and the log *)

Lemma bind_Ok {A B} (m : M A) (f : A → M B) l a l' :
  m l = (Ok a, l') → (m ≫= f) l = f a l'.
Proof. unfold mbind, M_bind. by intros ->. Qed.

Lemma bind_Raise {A B} (m : M A) (f : A → M B) l e l' :
  m l = (Raise e, l') → (m ≫= f) l = (Raise e, l').
Proof. unfold mbind, M_bind. by intros ->. Qed.

Lemma oblivious_ret {A} (a : A) : oblivious (mret a : M A).
Proof. intros l. unfold value, mret, M_ret. simpl. by rewrite app_nil_r. Qed.

Lemma oblivious_raise {A} (e : exn) : oblivious (raise e : M A).
Proof. intros l. unfold value, raise. simpl. by rewrite app_nil_r. Qed.

Lemma oblivious_sys_exit {A} (code : Z) : oblivious (sys_exit code : M A).
Proof. apply oblivious_raise. Qed.

Lemma oblivious_log lvl text arguments : oblivious (log lvl text arguments).
Proof. by intros l. Qed.

Lemma oblivious_bind {A B} (m : M A) (f : A → M B) :
  oblivious m → (∀ a, oblivious (f a)) → oblivious (m ≫= f).
Proof.
  intros Hm Hf l. unfold value, mbind, M_bind.
  rewrite (Hm l), (Hm []). destruct (value m) as [a|e]; simpl.
  - rewrite (Hf a (l ++ snd (m []))), (Hf a (snd (m []))). simpl. by rewrite app_assoc.
  - done.
Qed.

Lemma oblivious_try_except {A} (body : M A) catches (handler : exn → M A) :
  oblivious body → (∀ e, oblivious (handler e)) → oblivious (try_except body catches handler).
Proof.
  intros Hm Hh l. unfold value, try_except.
  rewrite (Hm l), (Hm []). destruct (value body) as [a|e]; simpl; [done|].
  destruct (catches e); [|done].
  rewrite (Hh e (l ++ snd (body []))), (Hh e (snd (body []))). simpl. by rewrite app_assoc.
Qed.

Lemma oblivious_for_each {A S} (xs : list A) (body : A → S → M S) (s : S) :
  (∀ x s, oblivious (body x s)) → oblivious (for_each xs body s).
Proof.
  intros Hb. revert s. induction xs as [|x xs IH]; intros s; simpl.
  - apply oblivious_ret.
  - apply oblivious_bind; [apply Hb | apply IH].
Qed.

Lemma oblivious_value {A} (m : M A) l : oblivious m → fst (m l) = value m.
Proof. intros H. by rewrite (H l). Qed.

Lemma value_bind {A B} (m : M A) (f : A → M B) :
  oblivious m → (∀ a, oblivious (f a)) →
  value (m ≫= f) = match value m with Ok a => value (f a) | Raise e => Raise e end.
Proof.
  intros Hm Hf. unfold value at 1, mbind, M_bind. rewrite (Hm []).
  destruct (value m) as [a|e]; [|done]. by rewrite (Hf a).
Qed.

Lemma value_try_except {A} (body : M A) catches (handler : exn → M A) :
  oblivious body → (∀ e, oblivious (handler e)) →
  value (try_except body catches handler) =
  match value body with
  | Raise e => if catches e then value (handler e) else Raise e
  | Ok a => Ok a
  end.
Proof.
  intros Hm Hh. unfold value at 1, try_except. rewrite (Hm []).
  destruct (value body) as [a|e]; [done|]. destruct (catches e); [|done]. by rewrite (Hh e).
Qed.

Create HintDb oblivious.
#[local] Hint Resolve oblivious_ret oblivious_raise oblivious_sys_exit oblivious_log
  oblivious_bind oblivious_try_except oblivious_for_each : oblivious.

Ltac oblivious := repeat (simpl; first
  [ match goal with |- ∀ _, _ => intro end
  | apply oblivious_ret | apply oblivious_raise | apply oblivious_sys_exit
  | apply oblivious_log | apply oblivious_bind | apply oblivious_try_except
  | apply oblivious_for_each | case_match | progress eauto with oblivious ]).

Lemma oblivious_subprocess_run w cmd : oblivious (subprocess_run w cmd).
Proof. unfold subprocess_run. oblivious. Qed.

Lemma oblivious_requests_get w url headers : oblivious (requests_get w url headers).
Proof. unfold requests_get. oblivious. Qed.

Lemma oblivious_raise_for_status response : oblivious (raise_for_status response).
Proof. unfold raise_for_status. oblivious. Qed.

Lemma oblivious_response_json response : oblivious (response_json response).
Proof. unfold response_json. oblivious. Qed.

Lemma oblivious_py_get d key dflt : oblivious (py_get d key dflt).
Proof. unfold py_get. oblivious. Qed.

Lemma oblivious_py_lower v : oblivious (py_lower v).
Proof. unfold py_lower. oblivious. Qed.

Lemma oblivious_getitem categories key : oblivious (getitem categories key).
Proof. unfold getitem. oblivious. Qed.

#[local] Hint Resolve oblivious_subprocess_run oblivious_requests_get
  oblivious_raise_for_status oblivious_response_json oblivious_py_get
  oblivious_py_lower oblivious_getitem : oblivious.

Lemma oblivious_get_commits_between_releases w base head repo_path :
  oblivious (get_commits_between_releases w base head repo_path).
Proof. unfold get_commits_between_releases. oblivious. Qed.

Lemma oblivious_get_story_details w self story_id :
  oblivious (get_story_details w self story_id).
Proof. unfold get_story_details. oblivious. Qed.

#[local] Hint Resolve oblivious_get_commits_between_releases
  oblivious_get_story_details : oblivious.

Lemma oblivious_categorize_story w self story_id categories :
  oblivious (categorize_story w self story_id categories).
Proof. unfold categorize_story. oblivious. Qed.

#[local] Hint Resolve oblivious_categorize_story : oblivious.

Lemma oblivious_categorize_stories w self story_ids :
  oblivious (categorize_stories w self story_ids).
Proof. unfold categorize_stories. oblivious. Qed.

Lemma oblivious_determine_version_bump categories :
  oblivious (determine_version_bump categories).
Proof. unfold determine_version_bump. oblivious. Qed.

Lemma oblivious_generate_release_notes py_str categories links :
  oblivious (generate_release_notes py_str categories links).
Proof. unfold generate_release_notes, append_section. oblivious. Qed.

Lemma oblivious_get_current_tag w repo_path : oblivious (get_current_tag w repo_path).
Proof. unfold get_current_tag. oblivious. Qed.

#[local] Hint Resolve oblivious_categorize_stories oblivious_determine_version_bump
  oblivious_generate_release_notes oblivious_get_current_tag : oblivious.

Lemma oblivious_resolve_version prev categories current_tag :
  oblivious (resolve_version prev categories current_tag).
Proof. unfold resolve_version, Version_of, call_next. oblivious. Qed.

Lemma oblivious_ReleaseHandler_init w : oblivious (ReleaseHandler_init w).
Proof. unfold ReleaseHandler_init. oblivious. Qed.

#[local] Hint Resolve oblivious_resolve_version oblivious_ReleaseHandler_init : oblivious.

Lemma oblivious_main_body py_str w args : oblivious (main_body py_str w args).
Proof. unfold main_body, Version_of. oblivious. Qed.

Lemma oblivious_main py_str w args : oblivious (main py_str w args).
Proof. unfold main. apply oblivious_try_except; [apply oblivious_main_body | oblivious]. Qed.

(** * Commits of a release *)

(** C4, as stated, fails.  When [git log] exits with a status other than
    zero and what it printed is not text, [get_commits_between_releases]
    raises [UnicodeDecodeError]: the output is decoded before the status is
    looked at, and only [CalledProcessError] is caught.  And after a
    successful [git log] that prints nothing the result is the list with one
    empty subject, which differs from the empty list of a failed one. *)
Lemma no_commits_differs_from_failure :
  value (get_commits_between_releases world_git_undecodable "v1.0.0" "HEAD" None)
  = Raise UnicodeDecodeError
  ∧ value (get_commits_between_releases world_git_silent "v1.0.0" "HEAD" None)
    = Ok [EmptyString]
  ∧ value (get_commits_between_releases world_git_failed "v1.0.0" "HEAD" None) = Ok []
  ∧ value (get_commits_between_releases world_git_silent "v1.0.0" "HEAD" None)
    ≠ value (get_commits_between_releases world_git_failed "v1.0.0" "HEAD" None).
Proof.
  split; [reflexivity|]. split; [reflexivity|]. split; [reflexivity|].
  intros H. vm_compute in H. discriminate H.
Qed.

(** C4, amended: when [git log] runs, prints text and exits with a status
    other than zero, [get_commits_between_releases] logs the command, then
    the error, and returns the empty list without raising. *)
Theorem get_commits_between_releases_failure
    (w : world) (base head : string) (repo_path : option string)
    (result : CompletedProcess) (l : list log_record) :
  run_command w (log_command base head repo_path) = Completed result →
  returncode result ≠ 0%Z →
  get_commits_between_releases w base head repo_path l
  = (Ok [],
     l ++ [ {| levelname := INFO; msg := "Running command: {' '.join(cmd)}";
               args := [AStr (Py.join " " (log_command base head repo_path))] |};
            {| levelname := ERROR; msg := "Error getting commits: {e}";
               args := [AExn CalledProcessError] |} ]).
Proof.
  intros Hrun Hfailed.
  unfold get_commits_between_releases, try_except, subprocess_run, mbind, M_bind, log.
  fold (log_command base head repo_path). rewrite Hrun.
  apply Z.eqb_neq in Hfailed. rewrite Hfailed. simpl. by rewrite <- app_assoc.
Qed.

Lemma get_commits_between_releases_failure_witness :
  fst (get_commits_between_releases world_git_failed "v1.0.0" "HEAD" None []) = Ok [].
Proof.
  by rewrite (get_commits_between_releases_failure world_git_failed "v1.0.0" "HEAD" None
                {| returncode := 1; stdout := EmptyString |} []).
Defined.


(** * Fetching and categorizing stories *)

Lemma get_story_details_value w self sid :
  value (get_story_details w self sid) = Ok (fetched w self sid).
Proof.
  unfold value, get_story_details, fetched, try_except, requests_get, mbind, M_bind, log.
  fold (story_url self sid). simpl.
  destruct (http_get w (story_url self sid) (shortcut_headers self)) as [|status [story|]];
    simpl; try done; by destruct ((400 <=? status)%Z && (status <? 600)%Z).
Qed.

Lemma categorize_story_value w self sid (categories : categories_t) :
  value (categorize_story w self sid categories) =
  match typed_entry sid (fetched w self sid) with
  | Some (story_type, entry) =>
      Ok (match categories !! story_type with
          | Some stories => <[story_type := stories ++ [entry]]> categories
          | None => categories
          end)
  | None => Raise AttributeError
  end.
Proof.
  unfold categorize_story. rewrite value_bind; [|oblivious..].
  rewrite get_story_details_value.
  destruct (fetched w self sid) as [| | | | |fields]; try done.
  unfold typed_entry.
  destruct (default (JString EmptyString) (fields_get fields "story_type")) eqn:Ht;
    unfold value, mbind, M_bind; simpl; rewrite Ht; simpl; try done.
  by destruct (categories !! Py.lower s).
Qed.

Lemma lookup_categories_of feature bug chore key :
  categories_of feature bug chore !! key =
  if decide (key = "feature") then Some feature
  else if decide (key = "bug") then Some bug
  else if decide (key = "chore") then Some chore
  else None.
Proof.
  unfold categories_of. repeat case_decide; simplify_map_eq; done.
Qed.

Lemma dom_categories_of feature bug chore :
  dom (categories_of feature bug chore) = three_keys.
Proof. unfold categories_of, three_keys. rewrite !dom_insert_L. set_solver. Qed.

Lemma bucket_cons key story_type entry stories :
  bucket key ((story_type, entry) :: stories) =
  if decide (story_type = key) then entry :: bucket key stories else bucket key stories.
Proof.
  unfold bucket. rewrite filter_cons. simpl. by case_decide.
Qed.

(** One step of the loop on a map with the three keys. *)
Lemma categorize_step feature bug chore story_type entry :
  match categories_of feature bug chore !! story_type with
  | Some stories => <[story_type := stories ++ [entry]]> (categories_of feature bug chore)
  | None => categories_of feature bug chore
  end
  = categories_of (feature ++ bucket "feature" [(story_type, entry)])
                  (bug ++ bucket "bug" [(story_type, entry)])
                  (chore ++ bucket "chore" [(story_type, entry)]).
Proof.
  rewrite lookup_categories_of, !bucket_cons. unfold bucket. simpl.
  apply map_eq. intros key.
  repeat case_decide; simplify_eq; rewrite ?app_nil_r; try done;
    unfold categories_of; simplify_map_eq; done.
Qed.

Lemma bucket_app key stories1 stories2 :
  bucket key (stories1 ++ stories2) = bucket key stories1 ++ bucket key stories2.
Proof. unfold bucket. by rewrite filter_app, fmap_app. Qed.

Lemma for_each_categorize_value w self story_ids feature bug chore :
  value (for_each story_ids (categorize_story w self) (categories_of feature bug chore)) =
  match typed_stories w self story_ids with
  | Some stories =>
      Ok (categories_of (feature ++ bucket "feature" stories)
                        (bug ++ bucket "bug" stories)
                        (chore ++ bucket "chore" stories))
  | None => Raise AttributeError
  end.
Proof.
  revert feature bug chore.
  induction story_ids as [|sid story_ids IH]; intros feature bug chore.
  - simpl. unfold bucket. simpl. by rewrite !app_nil_r.
  - simpl. rewrite value_bind; [|oblivious..].
    rewrite categorize_story_value. unfold typed_stories. simpl.
    destruct (typed_entry sid (fetched w self sid)) as [[story_type entry]|]; [|done].
    simpl. rewrite categorize_step, IH. unfold typed_stories.
    destruct (mapM _ story_ids) as [stories|]; [|done]. simpl.
    change ((story_type, entry) :: stories) with ([(story_type, entry)] ++ stories).
    by rewrite !bucket_app, !app_assoc.
Qed.

Lemma categorize_stories_value w self story_ids :
  value (categorize_stories w self story_ids) =
  match typed_stories w self story_ids with
  | Some stories =>
      Ok (categories_of (bucket "feature" stories) (bucket "bug" stories)
                        (bucket "chore" stories))
  | None => Raise AttributeError
  end.
Proof. apply (for_each_categorize_value w self story_ids [] [] []). Qed.

Lemma typed_entry_story_id sid story story_type entry :
  typed_entry sid story = Some (story_type, entry) → story_id entry = sid.
Proof.
  unfold typed_entry. intros H. repeat case_match; simplify_eq. done.
Qed.

Lemma typed_stories_elem w self story_ids stories story_type entry :
  typed_stories w self story_ids = Some stories →
  (story_type, entry) ∈ stories →
  story_id entry ∈ story_ids
  ∧ typed_entry (story_id entry) (fetched w self (story_id entry)) = Some (story_type, entry).
Proof.
  unfold typed_stories. intros H%mapM_Some Hin.
  induction H as [|sid p story_ids stories Hp _ IH]; [by apply elem_of_nil in Hin|].
  apply elem_of_cons in Hin as [<-|Hin].
  - pose proof (typed_entry_story_id _ _ _ _ Hp) as ->. split; [by left | done].
  - destruct (IH Hin) as [? ?]. split; [by right | done].
Qed.

Lemma elem_of_bucket key stories entry :
  entry ∈ bucket key stories ↔ (key, entry) ∈ stories.
Proof.
  unfold bucket. rewrite list_elem_of_fmap. split.
  - intros ([story_type e] & -> & [Hk Hin]%list_elem_of_filter). simpl in *. by subst.
  - intros Hin. exists (key, entry). split; [done|]. by apply list_elem_of_filter.
Qed.

(** A story whose type is none of the three keys is in no bucket. *)
Lemma other_type_in_no_bucket w self story_ids stories sid story_type entry :
  typed_stories w self story_ids = Some stories →
  typed_entry sid (fetched w self sid) = Some (story_type, entry) →
  story_type ∉ three_keys →
  ∀ key stories',
    categories_of (bucket "feature" stories) (bucket "bug" stories) (bucket "chore" stories)
      !! key = Some stories' →
    sid ∉ story_id <$> stories'.
Proof.
  intros Hs Hsid Hother key stories' Hkey Hin.
  apply list_elem_of_fmap in Hin as (entry' & -> & Hin).
  assert (key ∈ three_keys ∧ stories' = bucket key stories) as [Hk ->].
  { rewrite lookup_categories_of in Hkey. unfold three_keys.
    repeat case_decide; simplify_eq; split; (done || set_solver). }
  apply elem_of_bucket in Hin.
  destruct (typed_stories_elem _ _ _ _ _ _ Hs Hin) as [_ Ht].
  rewrite Hsid in Ht. by simplify_eq.
Qed.

(** C8: whenever [categorize_stories] returns, the keys of the map are
    exactly [feature], [bug] and [chore], each bucket holds the entries of
    the stories of its type in the order of the ids, and a story of any other
    type is in no bucket; it raises only when a fetched story is not a dict or
    has a type that is not a string. *)
Theorem categorize_stories_three_keys (w : world) (self : ReleaseHandler)
    (story_ids : list string) (l : list log_record) :
  match fst (categorize_stories w self story_ids l) with
  | Ok categories =>
      dom categories = three_keys
      ∧ ∃ stories,
          typed_stories w self story_ids = Some stories
          ∧ categories = categories_of (bucket "feature" stories) (bucket "bug" stories)
                                       (bucket "chore" stories)
          ∧ ∀ sid story_type entry,
              typed_entry sid (fetched w self sid) = Some (story_type, entry) →
              story_type ∉ three_keys →
              ∀ key stories', categories !! key = Some stories' →
                              sid ∉ story_id <$> stories'
  | Raise e =>
      e = AttributeError
      ∧ ∃ sid, sid ∈ story_ids ∧ typed_entry sid (fetched w self sid) = None
  end.
Proof.
  rewrite oblivious_value by apply oblivious_categorize_stories.
  rewrite categorize_stories_value.
  destruct (typed_stories w self story_ids) as [stories|] eqn:Hs.
  - split; [apply dom_categories_of|]. exists stories. repeat split.
    intros sid story_type entry. by apply (other_type_in_no_bucket w self story_ids).
  - split; [done|]. unfold typed_stories in Hs.
    induction story_ids as [|sid story_ids IH]; [done|].
    simpl in Hs. destruct (typed_entry sid (fetched w self sid)) eqn:Hsid.
    + simpl in Hs. destruct (mapM _ story_ids); [done|].
      destruct (IH eq_refl) as (sid' & ? & ?). exists sid'. split; [by right | done].
    + exists sid. split; [by left | done].
Qed.

Example categorize_stories_drops_other_types :
  let story story_type name :=
    Response 200 (Some (JObject [("story_type", JString story_type); ("name", JString name)])) in
  let w := {| getenv := λ _, Some "token";
              run_command := λ _, Completed {| returncode := 0; stdout := EmptyString |};
              http_get := λ url _,
                if String.eqb url "https://api.app.shortcut.com/api/v3/stories/1"
                then story "Feature" "Add login"
                else if String.eqb url "https://api.app.shortcut.com/api/v3/stories/2"
                then story "epic" "Rework"
                else story "bug" "Crash on load";
              set_order := sorted_order |} in
  value (categorize_stories w (handler_of "token") ["SC-3"; "SC-2"; "SC-1"])
  = Ok (categories_of
          [{| story_id := "SC-1"; story_name := JString "Add login";
              story_description := JString EmptyString |}]
          [{| story_id := "SC-3"; story_name := JString "Crash on load";
              story_description := JString EmptyString |}]
          []).
Proof. by vm_compute. Qed.

(** C7, as stated, fails for a status that is neither 2xx nor an error
    status: with status 300 and the JSON of a feature story as body,
    [get_story_details] returns that story and it lands in the feature
    bucket. *)
Lemma status_300_story_is_categorized :
  value (get_story_details world_status_300 (handler_of "token") "SC-42") = Ok login_story
  ∧ value (categorize_stories world_status_300 (handler_of "token") ["SC-42"])
    = Ok (categories_of
            [{| story_id := "SC-42"; story_name := JString "Add login";
                story_description := JString EmptyString |}] [] []).
Proof. split; by vm_compute. Qed.

(** C7, amended: when the fetch of a story meets no response or a response
    with a 4xx or 5xx status, [get_story_details] logs the error and returns
    the empty dict without raising; the step of the loop for that story
    returns the buckets unchanged, and the story is in no bucket of the map
    [categorize_stories] returns. *)
Theorem failed_fetch_is_dropped (w : world) (self : ReleaseHandler) (sid : string)
    (l : list log_record) :
  (http_get w (story_url self sid) (shortcut_headers self) = NoResponse
   ∨ ∃ status body,
       http_get w (story_url self sid) (shortcut_headers self) = Response status body
       ∧ error_status status) →
  (∃ e, is_RequestException e = true
        ∧ get_story_details w self sid l
          = (Ok (JObject []),
             l ++ [ {| levelname := INFO; msg := "Fetching story details for {story_id}";
                       args := [AStr sid] |};
                    {| levelname := ERROR; msg := "Error fetching story {story_id}: {e}";
                       args := [AStr sid; AExn e] |} ]))
  ∧ (∀ feature bug chore,
       fst (categorize_story w self sid (categories_of feature bug chore) l)
       = Ok (categories_of feature bug chore))
  ∧ (∀ story_ids categories,
       fst (categorize_stories w self story_ids l) = Ok categories →
       ∀ key stories, categories !! key = Some stories → sid ∉ story_id <$> stories).
Proof.
  intros Hfail.
  assert (fetched w self sid = JObject []) as Hfetched.
  { unfold fetched. destruct Hfail as [-> | (status & body & -> & [H1 H2])]; [done|].
    apply Z.leb_le in H1. apply Z.ltb_lt in H2. rewrite H1, H2. by destruct body. }
  split; [|split].
  - unfold get_story_details, try_except, requests_get, mbind, M_bind, log.
    fold (story_url self sid).
    destruct Hfail as [-> | (status & body & -> & [H1 H2])].
    + exists ConnectionError. split; [done|]. simpl. by rewrite <- app_assoc.
    + exists HTTPError. split; [done|]. simpl.
      apply Z.leb_le in H1. apply Z.ltb_lt in H2. rewrite H1, H2. simpl.
      by rewrite <- app_assoc.
  - intros feature bug chore.
    rewrite oblivious_value by apply oblivious_categorize_story.
    rewrite categorize_story_value, Hfetched. simpl.
    rewrite categorize_step, !bucket_cons. unfold bucket. simpl.
    by rewrite !app_nil_r.
  - intros story_ids categories Hc.
    rewrite oblivious_value in Hc by apply oblivious_categorize_stories.
    rewrite categorize_stories_value in Hc.
    destruct (typed_stories w self story_ids) as [stories|] eqn:Hs; [|done].
    injection Hc as <-.
    apply (other_type_in_no_bucket w self story_ids stories sid EmptyString
             {| story_id := sid; story_name := JString EmptyString;
                story_description := JString EmptyString |}); [done | by rewrite Hfetched |].
    unfold three_keys. rewrite !elem_of_union, !elem_of_singleton. by intros [[?|?]|?].
Qed.

Lemma failed_fetch_is_dropped_witness :
  fst (get_story_details
         (world_of {| returncode := 0; stdout := EmptyString |} (Response 503 (Some login_story)))
         (handler_of "token") "SC-42" [])
  = Ok (JObject []).
Proof.
  destruct (failed_fetch_is_dropped
              (world_of {| returncode := 0; stdout := EmptyString |}
                        (Response 503 (Some login_story)))
              (handler_of "token") "SC-42" []) as [(e & _ & H) _].
  - right. exists 503%Z, (Some login_story). split; [reflexivity|]. unfold error_status. lia.
  - by rewrite H.
Defined.


(** * Release notes *)

Lemma join_cons2 sep x y l :
  Py.join sep (x :: y :: l) = x +:+ sep +:+ Py.join sep (y :: l).
Proof. done. Qed.

Lemma join_head sep x l : ∃ rest, Py.join sep (x :: l) = x +:+ rest.
Proof.
  destruct l as [|y l].
  - exists EmptyString. simpl. by rewrite append_nil_r.
  - by exists (sep +:+ Py.join sep (y :: l)).
Qed.

Lemma join_app sep l1 l2 :
  l1 ≠ [] → l2 ≠ [] → Py.join sep (l1 ++ l2) = Py.join sep l1 +:+ sep +:+ Py.join sep l2.
Proof.
  intros H1 H2. induction l1 as [|x [|x' l1] IH]; [done| |].
  - destruct l2; done.
  - change ((x :: x' :: l1) ++ l2) with (x :: x' :: (l1 ++ l2)).
    rewrite !join_cons2. change (x' :: l1 ++ l2) with ((x' :: l1) ++ l2).
    rewrite IH by done. by rewrite !append_assoc.
Qed.

Lemma fold_left_snoc {A B} (g : A → B) (xs : list A) (acc : list B) :
  fold_left (λ acc x, acc ++ [g x]) xs acc = acc ++ map g xs.
Proof.
  revert acc. induction xs as [|x xs IH]; intros acc; simpl.
  - by rewrite app_nil_r.
  - by rewrite IH, <- app_assoc.
Qed.

Lemma append_section_categories_of py_str feature bug chore links key heading stories notes l :
  categories_of feature bug chore !! key = Some stories →
  append_section py_str (categories_of feature bug chore) links key heading notes l
  = (Ok (notes ++ section_lines py_str links heading stories), l).
Proof.
  intros Hkey. unfold append_section, getitem, section_lines, mbind, M_bind.
  rewrite Hkey. simpl. destruct stories as [|story stories]; simpl.
  - by rewrite app_nil_r.
  - unfold mret, M_ret. by rewrite fold_left_snoc, <- !app_assoc.
Qed.

Lemma generate_release_notes_lines py_str feature bug chore links l :
  generate_release_notes py_str (categories_of feature bug chore) links l
  = (Ok (Py.join line_feed (notes_lines py_str links feature bug chore)), l).
Proof.
  unfold generate_release_notes, notes_lines.
  erewrite bind_Ok; [|by apply append_section_categories_of].
  erewrite bind_Ok; [|by apply append_section_categories_of].
  erewrite bind_Ok; [|by apply append_section_categories_of].
  simpl. by rewrite <- app_assoc.
Qed.

Lemma section_lines_nonempty py_str links heading stories :
  stories ≠ [] →
  section_lines py_str links heading stories
  = heading :: map (bullet py_str links) stories.
Proof. by destruct stories. Qed.

Lemma rendered_bullet_bullet py_str links story :
  bullet py_str links story = rendered_bullet py_str links story.
Proof.
  unfold bullet, rendered_bullet, name_text, format_value.
  by destruct (story_name story).
Qed.

Lemma rendered_section_lines py_str links heading stories :
  section_lines py_str links heading stories
  = rendered_section py_str links heading stories.
Proof.
  unfold section_lines. destruct stories as [|story stories]; [done|].
  cbn [Py.truthy rendered_section]. f_equal. apply map_ext, rendered_bullet_bullet.
Qed.

(** C9: for every category map, the notes are the lines of the Features
    section, then of the Bug Fixes section, then of the Chores section, put
    together with line feeds; the heading of each section is the fixed text
    of the source, a section without story has no line at all, also no
    heading, and a bullet is the name of the story, with links wrapped in
    the markdown link to the page of the story under its lower-cased id.  So
    a single feature story [SC-42] named [Add login] gives, with links, the
    Features heading and the bullet
    [- [Add login](https://app.shortcut.com/story/sc-42)], and a map without
    bug story gives the Features and the Chores sections only. *)
Theorem generate_release_notes_sections (py_str : json → string)
    (feature bug chore : list story_entry) (links : bool) (l : list log_record) :
  generate_release_notes py_str (categories_of feature bug chore) links l
  = (Ok (Py.join line_feed
           (rendered_section py_str links "## ðŸš€ Features" feature
            ++ rendered_section py_str links (line_feed +:+ "## ðŸ› Bug Fixes") bug
            ++ rendered_section py_str links (line_feed +:+ "## ðŸ”§ Chores") chore)), l)
  ∧ (∀ sid name description,
       generate_release_notes py_str
         (categories_of [{| story_id := sid; story_name := JString name;
                            story_description := description |}] [] []) true l
       = (Ok ("## ðŸš€ Features" +:+ line_feed
              +:+ "- [" +:+ name +:+ "](https://app.shortcut.com/story/" +:+ Py.lower sid
              +:+ ")"), l))
  ∧ generate_release_notes py_str (categories_of [add_login] [] []) true l
    = (Ok ("## ðŸš€ Features" +:+ line_feed
           +:+ "- [Add login](https://app.shortcut.com/story/sc-42)"), l)
  ∧ generate_release_notes py_str (categories_of [add_login] [crash_on_load] [bump_deps])
      false l
    = (Ok ("## ðŸš€ Features" +:+ line_feed +:+ "- Add login" +:+ line_feed
           +:+ line_feed +:+ "## ðŸ› Bug Fixes" +:+ line_feed +:+ "- Crash on load" +:+ line_feed
           +:+ line_feed +:+ "## ðŸ”§ Chores" +:+ line_feed +:+ "- Bump dependencies"), l)
  ∧ generate_release_notes py_str (categories_of [add_login] [] [bump_deps]) false l
    = (Ok ("## ðŸš€ Features" +:+ line_feed +:+ "- Add login" +:+ line_feed
           +:+ line_feed +:+ "## ðŸ”§ Chores" +:+ line_feed +:+ "- Bump dependencies"), l).
Proof.
  assert (∀ feature bug chore links,
            generate_release_notes py_str (categories_of feature bug chore) links l
            = (Ok (Py.join line_feed
                     (rendered_section py_str links "## ðŸš€ Features" feature
                      ++ rendered_section py_str links (line_feed +:+ "## ðŸ› Bug Fixes") bug
                      ++ rendered_section py_str links (line_feed +:+ "## ðŸ”§ Chores") chore)), l))
    as Hnotes.
  { intros f b c k. rewrite generate_release_notes_lines. unfold notes_lines.
    by rewrite !rendered_section_lines. }
  split; [apply Hnotes|]. split; [|by rewrite !Hnotes].
  intros sid name description. by rewrite Hnotes.
Qed.

(** C3: the code departs from the claim when the first section that is
    emitted is not Features.  The line feed that separates two sections is
    written into the heading literals of the Bug Fixes and Chores sections,
    so it is also emitted when no section comes before: for the map with the
    single bug story named "Crash on load" the notes begin with a line feed,
    before the heading. *)
Lemma bug_only_notes_start_with_line_feed :
  value (generate_release_notes unnamed_str (categories_of [] [crash_on_load] []) false)
  = Ok (line_feed +:+ bug_title +:+ line_feed +:+ "- Crash on load")
  ∧ value (generate_release_notes unnamed_str (categories_of [] [crash_on_load] []) false)
    ≠ Ok (bug_title +:+ line_feed +:+ "- Crash on load").
Proof.
  split; [by vm_compute|]. intros H. vm_compute in H. discriminate H.
Qed.

(** What the heading literals give: the Features heading is never preceded
    by a line feed, the Bug Fixes and the Chores headings always are, be it
    the line feed after the section before or the first character of the
    notes. *)
Lemma headings_carry_their_line_feed (py_str : json → string)
    (feature bug chore : list story_entry) (links : bool) (l : list log_record) :
  ∃ text,
    generate_release_notes py_str (categories_of feature bug chore) links l = (Ok text, l)
    ∧ (feature ≠ [] → ∃ rest, text = heading_feature +:+ rest)
    ∧ (feature = [] → bug ≠ [] → ∃ rest, text = line_feed +:+ bug_title +:+ rest)
    ∧ (feature = [] → bug = [] → chore ≠ [] →
       ∃ rest, text = line_feed +:+ chore_title +:+ rest)
    ∧ (feature ≠ [] → bug ≠ [] →
       ∃ before rest, text = before +:+ line_feed +:+ line_feed +:+ bug_title +:+ rest)
    ∧ (feature ≠ [] ∨ bug ≠ [] → chore ≠ [] →
       ∃ before rest, text = before +:+ line_feed +:+ line_feed +:+ chore_title +:+ rest)
    ∧ (feature = [] → bug = [crash_on_load] → chore = [] → links = false →
       text = line_feed +:+ bug_title +:+ line_feed +:+ "- Crash on load").
Proof.
  eexists. split; [apply generate_release_notes_lines|].
  unfold notes_lines.
  assert (∀ stories rest, stories ≠ [] →
            ∃ tail, Py.join line_feed (section_lines py_str links heading_bug stories ++ rest)
                    = line_feed +:+ bug_title +:+ tail) as Hbug.
  { intros stories rest Hs. rewrite section_lines_nonempty by done.
    rewrite <- app_comm_cons.
    destruct (join_head line_feed heading_bug
                (map (bullet py_str links) stories ++ rest)) as [tail ->].
    by exists tail. }
  assert (∀ stories, stories ≠ [] →
            ∃ tail, Py.join line_feed (section_lines py_str links heading_chore stories)
                    = line_feed +:+ chore_title +:+ tail) as Hchore.
  { intros stories Hs. rewrite section_lines_nonempty by done.
    destruct (join_head line_feed heading_chore (map (bullet py_str links) stories))
      as [tail ->].
    by exists tail. }
  repeat split.
  - intros Hf. rewrite (section_lines_nonempty _ _ _ feature) by done. apply join_head.
  - intros -> Hb. simpl. by apply Hbug.
  - intros -> -> Hc. simpl. by apply Hchore.
  - intros Hf Hb. rewrite join_app.
    + destruct (Hbug bug (section_lines py_str links heading_chore chore) Hb) as [tail ->].
      by eexists _, tail.
    + by rewrite section_lines_nonempty.
    + rewrite (section_lines_nonempty _ _ _ bug) by done. done.
  - intros Hfb Hc. rewrite app_assoc, join_app.
    + destruct (Hchore chore Hc) as [tail ->]. by eexists _, tail.
    + destruct Hfb as [Hf|Hb].
      * rewrite (section_lines_nonempty _ _ _ feature) by done. done.
      * rewrite (section_lines_nonempty _ _ _ bug) by done. by destruct (section_lines _ _ _ feature).
    + by rewrite section_lines_nonempty.
  - by intros -> -> -> ->.
Qed.



(** * Decimal numbers and version strings *)

#[local] Arguments Re.digits_dot : simpl never.
#[local] Arguments SemVer.number_dot : simpl never.
#[local] Arguments Py.span_digits : simpl never.
#[local] Arguments Py.span_ascii_digits : simpl never.
#[local] Arguments Py.str_of_int : simpl never.
#[local] Arguments Py.int_of_str : simpl never.

Lemma to_uint_normal (n : N) : Decimal.unorm (N.to_uint n) = N.to_uint n.
Proof. by rewrite <- (Unsigned.to_of (N.to_uint n)), Unsigned.of_to. Qed.

Lemma to_uint_nonnil (n : N) : N.to_uint n ≠ Decimal.Nil.
Proof. rewrite <- to_uint_normal. apply DecimalFacts.unorm_nonnil. Qed.

Lemma string_of_uint_digits (d : Decimal.uint) :
  ascii_number (NilEmpty.string_of_uint d) = true.
Proof. induction d; simpl; done. Qed.

Lemma str_of_int_unfold (n : N) :
  Py.str_of_int n = NilEmpty.string_of_uint (N.to_uint n).
Proof.
  unfold Py.str_of_int, NilZero.string_of_uint.
  pose proof (to_uint_nonnil n). by destruct (N.to_uint n).
Qed.

Lemma str_of_int_ascii (n : N) : ascii_number (Py.str_of_int n) = true.
Proof. rewrite str_of_int_unfold. apply string_of_uint_digits. Qed.

Lemma str_of_int_digits (n : N) : Py.all_digits (Py.str_of_int n) = true.
Proof. apply ascii_number_all_digits, str_of_int_ascii. Qed.

Lemma str_of_int_nonempty (n : N) : Py.is_empty (Py.str_of_int n) = false.
Proof.
  rewrite str_of_int_unfold. pose proof (to_uint_nonnil n). by destruct (N.to_uint n).
Qed.

Lemma str_of_int_no_leading_zero (n : N) : SemVer.has_leading_zero (Py.str_of_int n) = false.
Proof.
  rewrite str_of_int_unfold. pose proof (to_uint_normal n) as Hn.
  destruct (N.to_uint n) as [|d| | | | | | | | |]; try done.
  destruct d; try done; exfalso; rewrite DecimalFacts.unorm_D0 in Hn;
    unfold Decimal.unorm in Hn;
    match type of Hn with
    | context [Decimal.nzhead ?x] =>
        pose proof (DecimalFacts.nzhead_nonzero x) as Hz; destruct (Decimal.nzhead x) eqn:Hh
    end; simplify_eq; by eapply Hz.
Qed.

(** Digits of the range [[0-9]] are their own writing in ASCII. *)
Lemma ascii_digits_upto_ascii (n : nat) (ds : string) :
  String.length ds ≤ n → ascii_number ds = true → Py.ascii_digits_upto n ds = Some ds.
Proof.
  revert n. induction ds as [|c ds IH]; intros n Hn; [by destruct n|].
  simpl in Hn. destruct n as [|n]; [lia|]. simpl. intros [Hc Hds]%andb_true_iff.
  rewrite (first_digit_ascii _ _ Hc), IH by (done || lia). simpl.
  apply is_digit_range in Hc.
  replace (48 + (Py.code c - 48))%N with (Py.code c) by lia.
  unfold Py.code. by rewrite ascii_N_embedding.
Qed.

Lemma ascii_digits_ascii (ds : string) :
  ascii_number ds = true → Py.ascii_digits ds = Some ds.
Proof. intros H. by apply ascii_digits_upto_ascii. Qed.

Lemma int_of_str_of_int (n : N) : Py.int_of_str (Py.str_of_int n) = Some n.
Proof.
  unfold Py.int_of_str. rewrite ascii_digits_ascii by apply str_of_int_ascii.
  unfold Py.str_of_int. simpl.
  rewrite NilZero.usu by apply to_uint_nonnil. simpl. by rewrite Unsigned.of_to.
Qed.

Lemma span_digits_str_of_int (n : N) (r : string) :
  starts_with_digit r = false →
  Py.span_digits (Py.str_of_int n +:+ r) = (Py.str_of_int n, r).
Proof. apply span_digits_app, str_of_int_digits. Qed.

Lemma number_dot_str_of_int (n : N) (r : string) :
  SemVer.number_dot (Py.str_of_int n +:+ String "." r) = Some (Py.str_of_int n, r).
Proof.
  unfold SemVer.number_dot.
  rewrite span_digits_str_of_int by done. by rewrite str_of_int_nonempty.
Qed.

Lemma digits_dot_str_of_int (n : N) (r : string) :
  Re.digits_dot (Py.str_of_int n +:+ String "." r) = Some (Py.str_of_int n, r).
Proof.
  unfold Re.digits_dot.
  rewrite span_ascii_digits_app by (done || apply str_of_int_ascii).
  by rewrite str_of_int_nonempty.
Qed.

Lemma span_digits_all (ds : string) :
  Py.all_digits ds = true → Py.span_digits ds = (ds, EmptyString).
Proof. apply all_digits_span. Qed.

Lemma span_ascii_digits_all (ds : string) :
  ascii_number ds = true → Py.span_ascii_digits ds = (ds, EmptyString).
Proof.
  intros H. rewrite <- (append_nil_r ds) at 1. by apply span_ascii_digits_app.
Qed.

Lemma match_version_tag_version_tag (major minor patch : N) :
  Re.match_version_tag (version_tag major minor patch) = true.
Proof.
  unfold version_tag, Re.match_version_tag. simpl.
  rewrite !digits_dot_str_of_int.
  rewrite span_ascii_digits_all by apply str_of_int_ascii.
  by rewrite str_of_int_nonempty.
Qed.

Lemma parse_release (major minor patch : N) :
  SemVer.parse (Py.str_of_int major +:+ "." +:+ Py.str_of_int minor +:+ "."
                +:+ Py.str_of_int patch)
  = Some (SemVer.release major minor patch).
Proof.
  unfold SemVer.parse.
  assert (Py.is_empty (Py.str_of_int major +:+ "." +:+ Py.str_of_int minor +:+ "."
                       +:+ Py.str_of_int patch) = false) as ->.
  { pose proof (str_of_int_nonempty major). by destruct (Py.str_of_int major). }
  simpl. rewrite number_dot_str_of_int. simpl. rewrite number_dot_str_of_int. simpl.
  rewrite span_digits_all by apply str_of_int_digits.
  rewrite str_of_int_nonempty. simpl.
  rewrite !str_of_int_no_leading_zero. simpl.
  by rewrite !int_of_str_of_int.
Qed.

Lemma str_release (major minor patch : N) :
  "v" +:+ SemVer.str (SemVer.release major minor patch) = version_tag major minor patch.
Proof.
  unfold SemVer.str, version_tag. simpl.
  by rewrite !append_nil_r.
Qed.

Lemma str_of_int_head (n : N) :
  ∃ c t, Py.str_of_int n = String c t ∧ Py.is_digit c = true.
Proof.
  pose proof (str_of_int_nonempty n) as Hne. pose proof (str_of_int_ascii n) as Hd.
  destruct (Py.str_of_int n) as [|c t]; [done|].
  exists c, t. by apply andb_true_iff in Hd as [? _].
Qed.

Lemma lstrip_v_version_tag (major minor patch : N) :
  Py.lstrip_char "v" (version_tag major minor patch)
  = Py.str_of_int major +:+ "." +:+ Py.str_of_int minor +:+ "." +:+ Py.str_of_int patch.
Proof.
  unfold version_tag. destruct (str_of_int_head major) as (c & t & -> & Hc). simpl.
  destruct (Ascii.eqb_spec c "v") as [->|]; done.
Qed.


(** * The tag of the current commit and the next version *)

Lemma no_space_app (s1 s2 : string) :
  no_space (s1 +:+ s2) = no_space s1 && no_space s2.
Proof. induction s1 as [|c s1 IH]; simpl; [done|]. by rewrite IH, andb_assoc. Qed.

Lemma no_space_digits (ds : string) : ascii_number ds = true → no_space ds = true.
Proof.
  induction ds as [|c ds IH]; simpl; [done|]. intros [Hc Hd]%andb_true_iff.
  rewrite (IH Hd), andb_true_r.
  by destruct c as [[] [] [] [] [] [] [] []].
Qed.

Lemma no_space_version_tag (major minor patch : N) :
  no_space (version_tag major minor patch) = true.
Proof.
  unfold version_tag. rewrite !no_space_app.
  by rewrite !(no_space_digits _ (str_of_int_ascii _)).
Qed.

(** A string that starts with an ASCII character other than white space
    has nothing to strip on the left. *)
Lemma lstrip_ascii (c : ascii) (t : string) :
  (Py.code c <? 128)%N && negb (Py.is_space (Py.code c)) = true →
  Py.lstrip (String c t) = String c t.
Proof.
  intros [Hc Hs%negb_true_iff]%andb_true_iff. apply N.ltb_lt in Hc.
  unfold Py.lstrip. change (String.length (String c t)) with (S (String.length t)).
  cbn [Py.lstrip_upto]. unfold Py.first_space.
  by rewrite (first_char_ascii _ _ Hc), Hs.
Qed.

Lemma lstrip_no_space (s r : string) :
  no_space s = true → Py.is_empty s = false → Py.lstrip (s +:+ r) = s +:+ r.
Proof.
  destruct s as [|c s]; [done|]. simpl. intros [Hc _]%andb_true_iff _.
  by apply lstrip_ascii.
Qed.

Lemma rstrip_no_space_line_feed (s : string) :
  no_space s = true → Py.rstrip (s +:+ line_feed) = s.
Proof.
  induction s as [|c s IH]; [done|]. intros [Hc Hs]%andb_true_iff.
  change (String c s +:+ line_feed) with (String c (s +:+ line_feed)).
  cbn [Py.rstrip]. by rewrite (lstrip_ascii _ _ Hc), (IH Hs).
Qed.

Lemma strip_line (s : string) :
  no_space s = true → Py.is_empty s = false → Py.strip (s +:+ line_feed) = s.
Proof.
  intros Hs Hne. unfold Py.strip. rewrite lstrip_no_space by done.
  by apply rstrip_no_space_line_feed.
Qed.

Lemma split_no_space (s : string) : no_space s = true → Py.split Py.newline s = [s].
Proof.
  induction s as [|c s IH]; simpl; [done|]. intros [Hc Hs]%andb_true_iff.
  rewrite (IH Hs). destruct (Ascii.eqb_spec c Py.newline) as [->|]; done.
Qed.

Lemma subprocess_run_value (w : world) (cmd : list string) :
  value (subprocess_run w cmd)
  = match run_command w cmd with
    | NotStarted => Raise OSError
    | Undecodable _ => Raise UnicodeDecodeError
    | Completed result =>
        if (returncode result =? 0)%Z then Ok result else Raise CalledProcessError
    end.
Proof.
  unfold value, subprocess_run. destruct (run_command w cmd) as [| |result]; try done.
  by destruct (returncode result =? 0)%Z.
Qed.

Lemma get_current_tag_run (w : world) (repo_path : option string) (l : list log_record) :
  ∃ l', get_current_tag w repo_path l
        = (match run_command w (tag_command repo_path) with
           | NotStarted => Raise OSError
           | Undecodable _ => Raise UnicodeDecodeError
           | Completed _ => Ok (current_tag_of w repo_path)
           end, l').
Proof.
  unfold get_current_tag, current_tag_of, try_except, subprocess_run, mbind, M_bind, log.
  fold (tag_command repo_path). simpl.
  destruct (run_command w (tag_command repo_path)) as [| |result]; simpl; try by eexists.
  destruct (returncode result =? 0)%Z; simpl; [|by eexists].
  destruct (List.filter _ _); by eexists.
Qed.

Lemma get_current_tag_value (w : world) (repo_path : option string) :
  value (get_current_tag w repo_path)
  = match run_command w (tag_command repo_path) with
    | NotStarted => Raise OSError
    | Undecodable _ => Raise UnicodeDecodeError
    | Completed _ => Ok (current_tag_of w repo_path)
    end.
Proof.
  unfold value. by destruct (get_current_tag_run w repo_path []) as [l' ->].
Qed.

Lemma current_tag_of_version_tag (w : world) (repo_path : option string) (major minor patch : N) :
  run_command w (tag_command repo_path)
  = Completed {| returncode := 0; stdout := version_tag major minor patch +:+ line_feed |} →
  current_tag_of w repo_path = Some (version_tag major minor patch).
Proof.
  intros H. unfold current_tag_of. rewrite H. cbn [returncode stdout].
  rewrite strip_line, split_no_space; try apply no_space_version_tag; [|done].
  cbn [List.filter]. by rewrite match_version_tag_version_tag.
Qed.

Lemma determine_version_bump_value feature bug chore l :
  determine_version_bump (categories_of feature bug chore) l
  = (Ok (if Py.truthy feature then "minor" else "patch"), l).
Proof.
  unfold determine_version_bump, getitem, mbind, M_bind.
  rewrite !lookup_categories_of. simpl.
  destruct feature; simpl; [|done]. by destruct bug.
Qed.

(** C1: the bump is [minor] when the feature bucket is not empty and [patch]
    otherwise, whatever the bug and chore buckets; without a tag on the
    current commit the new version is the previous one with the minor number
    incremented and the patch number reset, respectively with the patch
    number incremented: from 1.2.3, 1.3.0 and 1.2.4. *)
Theorem determine_version_bump_minor_or_patch
    (feature bug chore : list story_entry) (l : list log_record) :
  determine_version_bump (categories_of feature bug chore) l
  = (Ok (if Py.truthy feature then "minor" else "patch"), l)
  ∧ (∀ major minor patch,
       fst (resolve_version (SemVer.release major minor patch)
              (categories_of feature bug chore) None l)
       = Ok (if Py.truthy feature
             then SemVer.release major (minor + 1) 0
             else SemVer.release major minor (patch + 1)))
  ∧ SemVer.parse "1.2.3" = Some (SemVer.release 1 2 3)
  ∧ SemVer.str (SemVer.release 1 (2 + 1) 0) = "1.3.0"
  ∧ SemVer.str (SemVer.release 1 2 (3 + 1)) = "1.2.4".
Proof.
  split; [apply determine_version_bump_value|]. split; [|done].
  intros major minor patch. unfold resolve_version. simpl.
  erewrite bind_Ok; [|apply determine_version_bump_value].
  by destruct feature.
Qed.

(** C2: the code departs from the claim for a version tag with a leading
    zero.  The tag [v01.2.3] matches the pattern by which [get_current_tag]
    recognises a version tag, so it is returned and announced as reused, but
    the version parser rejects the leading zero: [resolve_version] raises
    [ValueError] and the run exits with status 1, where the claim has it
    return the version of the tag.  The same happens when the commit also
    bears a tag that the parser accepts, listed after the other one. *)
Lemma leading_zero_tag_is_rejected :
  Re.match_version_tag "v01.2.3" = true
  ∧ value (get_current_tag world_tag_leading_zero None) = Ok (Some "v01.2.3")
  ∧ value (resolve_version (SemVer.release 1 2 3) empty_categories (Some "v01.2.3"))
    = Raise ValueError
  ∧ value (main unnamed_str world_tag_leading_zero
             {| prev_version := "v1.2.3"; repo_path := None; include_story_links := false |})
    = Raise (SystemExit 1)
  ∧ value (get_current_tag world_two_tags None) = Ok (Some "v01.0.0")
  ∧ value (main unnamed_str world_two_tags
             {| prev_version := "v0.9.0"; repo_path := None; include_story_links := false |})
    = Raise (SystemExit 1).
Proof. repeat split; by vm_compute. Qed.

(** When the only tag of the current commit is [v<major>.<minor>.<patch>]
    with three numbers written in decimal without leading zeros,
    [get_current_tag] returns it and the new version is the version of that
    tag, whatever the previous version and the categories; printed after
    [v], it is the tag again. *)
Lemma resolve_version_reuses_tag (w : world) (repo_path : option string)
    (major minor patch : N) (prev : SemVer.Version) (categories : categories_t)
    (l : list log_record) :
  run_command w (tag_command repo_path)
  = Completed {| returncode := 0; stdout := version_tag major minor patch +:+ line_feed |} →
  Re.match_version_tag (version_tag major minor patch) = true
  ∧ fst (get_current_tag w repo_path l) = Ok (Some (version_tag major minor patch))
  ∧ fst (resolve_version prev categories (Some (version_tag major minor patch)) l)
    = Ok (SemVer.release major minor patch)
  ∧ "v" +:+ SemVer.str (SemVer.release major minor patch) = version_tag major minor patch.
Proof.
  intros Hrun. split; [apply match_version_tag_version_tag|]. split; [|split].
  - rewrite oblivious_value by apply oblivious_get_current_tag.
    by rewrite get_current_tag_value, Hrun, (current_tag_of_version_tag _ _ _ _ _ Hrun).
  - assert (truthy_str (Some (version_tag major minor patch)) = true) as Htag by done.
    unfold resolve_version. rewrite Htag.
    unfold Version_of, mbind, M_bind, log. cbn [default from_option id].
    by rewrite lstrip_v_version_tag, parse_release.
  - apply str_release.
Qed.

Lemma resolve_version_reuses_tag_witness :
  fst (resolve_version (SemVer.release 1 2 3)
         (categories_of [crash_on_load] [] []) (Some (version_tag 2 0 10)) [])
  = Ok (SemVer.release 2 0 10).
Proof.
  destruct (resolve_version_reuses_tag
              (world_of {| returncode := 0; stdout := version_tag 2 0 10 +:+ line_feed |}
                        NoResponse)
              None 2 0 10 (SemVer.release 1 2 3) (categories_of [crash_on_load] [] []) [])
    as (_ & _ & H & _); [reflexivity | exact H].
Defined.

(** * The driver *)

Lemma oblivious_Version_of s : oblivious (Version_of s).
Proof. unfold Version_of. oblivious. Qed.

Lemma oblivious_call_next version bump_type : oblivious (call_next version bump_type).
Proof. unfold call_next. oblivious. Qed.

#[local] Hint Resolve oblivious_Version_of oblivious_call_next : oblivious.

Lemma value_log lvl text arguments : value (log lvl text arguments) = Ok ().
Proof. done. Qed.

Lemma ReleaseHandler_init_value_cases w :
  value (ReleaseHandler_init w)
  = if truthy_str (getenv w "SHORTCUT_API_TOKEN")
    then Ok (handler_of (default EmptyString (getenv w "SHORTCUT_API_TOKEN")))
    else Raise (SystemExit 1).
Proof. unfold value, ReleaseHandler_init. by destruct (truthy_str _). Qed.

Lemma ReleaseHandler_init_value (w : world) (token : string) :
  getenv w "SHORTCUT_API_TOKEN" = Some token → token ≠ EmptyString →
  value (ReleaseHandler_init w) = Ok (handler_of token).
Proof.
  intros Henv Htoken. unfold value, ReleaseHandler_init. rewrite Henv.
  by destruct token.
Qed.

Lemma parse_prev_version_cases (text : string) :
  value (try_except
           (v ← Version_of (Py.lstrip_char "v" text);
            log INFO "Using previous version: {args.prev_version}" [AStr text];;
            mret v)
           is_ValueError
           (λ e, log ERROR "Invalid version format: {args.prev_version}" [AStr text];;
                 sys_exit 1))
  = match SemVer.parse (Py.lstrip_char "v" text) with
    | Some prev => Ok prev
    | None => Raise (SystemExit 1)
    end.
Proof.
  unfold value, try_except, Version_of, mbind, M_bind, log. by destruct (SemVer.parse _).
Qed.

Lemma generate_release_notes_value py_str feature bug chore links :
  value (generate_release_notes py_str (categories_of feature bug chore) links)
  = Ok (Py.join line_feed (notes_lines py_str links feature bug chore)).
Proof. unfold value. by rewrite generate_release_notes_lines. Qed.

Ltac value_step H :=
  rewrite value_bind; [rewrite H | oblivious | oblivious].

Lemma get_commits_between_releases_run w base head repo_path l :
  ∃ l', get_commits_between_releases w base head repo_path l
        = (match run_command w (log_command base head repo_path) with
           | NotStarted => Raise OSError
           | Undecodable _ => Raise UnicodeDecodeError
           | Completed _ => Ok (commits_of w base head repo_path)
           end, l').
Proof.
  unfold get_commits_between_releases, commits_of, try_except, subprocess_run, mbind, M_bind, log.
  fold (log_command base head repo_path). simpl.
  destruct (run_command w (log_command base head repo_path)) as [| |result];
    simpl; try by eexists.
  destruct (returncode result =? 0)%Z; simpl; by eexists.
Qed.

Lemma get_commits_between_releases_value w base head repo_path :
  value (get_commits_between_releases w base head repo_path)
  = match run_command w (log_command base head repo_path) with
    | NotStarted => Raise OSError
    | Undecodable _ => Raise UnicodeDecodeError
    | Completed _ => Ok (commits_of w base head repo_path)
    end.
Proof.
  unfold value. by destruct (get_commits_between_releases_run w base head repo_path []) as [l' ->].
Qed.

Lemma head_filter_Some {A} (P : A → bool) (l : list A) (x : A) :
  head (List.filter P l) = Some x →
  P x = true ∧ ∃ before rest, l = before ++ x :: rest ∧ Forall (λ y, P y = false) before.
Proof.
  induction l as [|y l IH]; simpl; [done|].
  destruct (P y) eqn:Hy; simpl.
  - intros [= ->]. split; [done|]. by exists [], l.
  - intros (Hx & before & rest & -> & Hb)%IH. split; [done|].
    exists (y :: before), rest. split; [done|]. by constructor.
Qed.

Lemma head_filter_None {A} (P : A → bool) (l : list A) :
  head (List.filter P l) = None → Forall (λ y, P y = false) l.
Proof.
  induction l as [|y l IH]; simpl; [done|].
  destruct (P y) eqn:Hy; simpl; [done|]. intros H. constructor; auto.
Qed.

Lemma match_version_tag_truthy (tag : string) :
  Re.match_version_tag tag = true → truthy_str (Some tag) = true.
Proof. by destruct tag. Qed.

Lemma current_tag_of_truthy w repo_path tag :
  current_tag_of w repo_path = Some tag →
  Re.match_version_tag tag = true ∧ truthy_str (Some tag) = true.
Proof.
  unfold current_tag_of. destruct (run_command _ _) as [| |result]; try done.
  destruct (_ =? _)%Z; [|done].
  intros [Hm _]%head_filter_Some. split; [done|]. by apply match_version_tag_truthy.
Qed.

Lemma determine_version_bump_outcome feature bug chore :
  value (determine_version_bump (categories_of feature bug chore))
  = Ok (if Py.truthy feature then "minor" else "patch").
Proof. unfold value. by rewrite determine_version_bump_value. Qed.

Lemma resolve_version_value prev feature bug chore current_tag :
  value (resolve_version prev (categories_of feature bug chore) current_tag)
  = if truthy_str current_tag then
      match SemVer.parse (Py.lstrip_char "v" (default EmptyString current_tag)) with
      | Some version => Ok version
      | None => Raise ValueError
      end
    else Ok (bumped prev feature).
Proof.
  unfold resolve_version. destruct (truthy_str current_tag).
  - unfold value, Version_of, mbind, M_bind, log. by destruct (SemVer.parse _).
  - value_step determine_version_bump_outcome. unfold bumped, call_next.
    by destruct feature.
Qed.

Lemma main_body_value py_str w args :
  match value (main_body py_str w args), main_result py_str w args with
  | Ok out, Ok out' => out = out'
  | Raise e, Raise _ => e = SystemExit 1 ∨ is_Exception e = true
  | _, _ => False
  end.
Proof.
  unfold main_body, main_result, completes.
  rewrite value_bind; [|oblivious..]. rewrite ReleaseHandler_init_value_cases.
  destruct (truthy_str (getenv w "SHORTCUT_API_TOKEN")); simpl; [|by left].
  rewrite value_bind; [|oblivious..]. rewrite parse_prev_version_cases.
  destruct (SemVer.parse (Py.lstrip_char "v" (prev_version args))) as [prev|]; [|by left].
  value_step get_commits_between_releases_value.
  destruct (run_command w (log_command _ _ _)) as [| |result_log]; try by right.
  value_step value_log.
  value_step value_log.
  rewrite value_bind; [|oblivious..].
  assert (∀ ids, value (if negb (Py.truthy ids)
                        then log WARNING "No story IDs found in commit messages" []
                        else mret ()) = Ok ()) as -> by (by intros []).
  rewrite value_bind; [|oblivious..]. rewrite categorize_stories_value.
  pose proof (get_current_tag_value w (repo_path args)) as Htag_value.
  destruct (run_command w (tag_command _)) as [| |result_tag] eqn:Hrun.
  - destruct (typed_stories _ _ _) as [stories|]; [|by right].
    value_step value_log. rewrite value_bind; [|oblivious..]. rewrite Htag_value. by right.
  - destruct (typed_stories _ _ _) as [stories|]; [|by right].
    value_step value_log. rewrite value_bind; [|oblivious..]. rewrite Htag_value. by right.
  - cbn [andb negb].
    destruct (typed_stories _ _ _) as [stories|]; [|by right].
    value_step value_log.
    value_step Htag_value.
    rewrite value_bind; [|oblivious..]. rewrite resolve_version_value.
    destruct (current_tag_of w (repo_path args)) as [current_tag|] eqn:Htag.
    + destruct (current_tag_of_truthy _ _ _ Htag) as [_ ->]. simpl.
      destruct (SemVer.parse (Py.lstrip_char "v" current_tag)) as [version|]; [|by right].
      value_step generate_release_notes_value.
      by value_step value_log.
    + simpl. value_step generate_release_notes_value.
      by value_step value_log.
Qed.

Lemma main_value py_str w args :
  value (main py_str w args) = main_result py_str w args.
Proof.
  unfold main. rewrite value_try_except; [|apply oblivious_main_body | oblivious].
  pose proof (main_body_value py_str w args) as H.
  destruct (value (main_body py_str w args)) as [out|e];
    destruct (main_result py_str w args) as [out'|e'] eqn:Hr; try done; [by subst|].
  assert (e' = SystemExit 1) as ->.
  { unfold main_result in Hr. repeat case_match; by simplify_eq. }
  destruct H as [->|He]; [done|]. by rewrite He.
Qed.

Lemma main_run py_str w args l : fst (main py_str w args l) = main_result py_str w args.
Proof. rewrite oblivious_value by apply oblivious_main. apply main_value. Qed.

Lemma main_result_without_tag py_str w args token prev stories :
  getenv w "SHORTCUT_API_TOKEN" = Some token → token ≠ EmptyString →
  SemVer.parse (Py.lstrip_char "v" (prev_version args)) = Some prev →
  completes w (log_command (prev_version args) "HEAD" (repo_path args)) = true →
  completes w (tag_command (repo_path args)) = true →
  typed_stories w (handler_of token)
    (extract_story_ids w (commits_of w (prev_version args) "HEAD" (repo_path args)))
  = Some stories →
  current_tag_of w (repo_path args) = None →
  main_result py_str w args
  = Ok {| tag := "v" +:+ SemVer.str (bumped prev (bucket "feature" stories));
          release_notes :=
            Py.join line_feed
              (notes_lines py_str (include_story_links args)
                 (bucket "feature" stories) (bucket "bug" stories)
                 (bucket "chore" stories)) |}.
Proof.
  intros Henv Htoken Hprev Hlog Hrun Hstories Htag. unfold main_result.
  rewrite Henv. destruct token; [done|]. cbn [truthy_str negb default from_option id].
  by rewrite Hprev, Hlog, Hrun, Hstories, Htag.
Qed.







(** The end-to-end scenario: from [v1.0.0], a feature and a bug give
    [v1.1.0] and notes with a Features and a Bug Fixes section. *)
Example main_two_stories :
  value (main unnamed_str world_two_stories
           {| prev_version := "v1.0.0"; repo_path := None; include_story_links := false |})
  = Ok {| tag := "v1.1.0";
          release_notes :=
            heading_feature +:+ line_feed +:+ "- Add login" +:+ line_feed
            +:+ heading_bug +:+ line_feed +:+ "- Crash on load" |}.
Proof. by vm_compute. Qed.

(** Without the token the run exits with status 1 before any work. *)
Example main_without_token :
  main unnamed_str world_no_token
    {| prev_version := "v1.0.0"; repo_path := None; include_story_links := false |} []
  = (Raise (SystemExit 1),
     [{| levelname := ERROR;
         msg := "SHORTCUT_API_TOKEN environment variable is not set"; args := [] |}]).
Proof. reflexivity. Qed.

(** A previous version that does not parse is fatal. *)
Example main_invalid_previous_version :
  main unnamed_str world_git_silent
    {| prev_version := "abc"; repo_path := None; include_story_links := false |} []
  = (Raise (SystemExit 1),
     [{| levelname := ERROR; msg := "Invalid version format: {args.prev_version}";
         args := [AStr "abc"] |}]).
Proof. reflexivity. Qed.

(** A previous version written with the digits of another script is read
    like any other, and the new tag is printed with ASCII digits. *)
Example main_arabic_digits :
  value (main unnamed_str world_git_silent
           {| prev_version := "v١.٢.٣"; repo_path := None; include_story_links := false |})
  = Ok {| tag := "v1.2.4"; release_notes := EmptyString |}.
Proof. by vm_compute. Qed.


(** * Further properties: commits and tags *)

Lemma split_cons (sep : ascii) (s : string) : ∃ piece rest, Py.split sep s = piece :: rest.
Proof.
  induction s as [|c s (piece & rest & IH)]; simpl; [by eexists _, _|].
  rewrite IH. destruct (Ascii.eqb c sep); by eexists _, _.
Qed.

Lemma join_cons_String sep c piece rest :
  Py.join sep (String c piece :: rest) = String c (Py.join sep (piece :: rest)).
Proof. by destruct rest. Qed.

Lemma join_split (s : string) : Py.join line_feed (Py.split Py.newline s) = s.
Proof.
  induction s as [|c s IH]; simpl; [done|].
  destruct (split_cons Py.newline s) as (piece & rest & Hs). rewrite Hs in IH |- *.
  destruct (Ascii.eqb_spec c Py.newline) as [->|Hc].
  - rewrite join_cons2, IH. done.
  - by rewrite join_cons_String, IH.
Qed.

Lemma split_no_separator (sep : ascii) (s : string) :
  Forall (λ piece, contains sep piece = false) (Py.split sep s).
Proof.
  induction s as [|c s IH]; simpl; [by repeat constructor|].
  destruct (Ascii.eqb_spec c sep) as [->|Hc]; [by constructor|].
  destruct (Py.split sep s) as [|piece rest]; [repeat constructor; simpl|].
  - by destruct (Ascii.eqb_spec c sep).
  - apply Forall_cons in IH as [Hp Hr]. constructor; [|done]. simpl.
    by destruct (Ascii.eqb_spec c sep).
Qed.

(** X1: [get_commits_between_releases] raises in two cases only: [OSError]
    when [git] cannot be started, [UnicodeDecodeError] when what it prints is
    not text.  When [git log] exits with a status other than zero the result
    is the empty list; when it succeeds, the commits are the lines of its
    stripped output: there is at least one (the empty subject when nothing
    was printed), none contains a line feed, and joined by line feeds they
    give the stripped output back. *)
Theorem get_commits_between_releases_lines (w : world) (base head : string)
    (repo_path : option string) (l : list log_record) :
  match run_command w (log_command base head repo_path) with
  | NotStarted =>
      fst (get_commits_between_releases w base head repo_path l) = Raise OSError
  | Undecodable _ =>
      fst (get_commits_between_releases w base head repo_path l) = Raise UnicodeDecodeError
  | Completed result =>
      ∃ commits,
        fst (get_commits_between_releases w base head repo_path l) = Ok commits
        ∧ if (returncode result =? 0)%Z
          then commits ≠ []
               ∧ Forall (λ commit, contains Py.newline commit = false) commits
               ∧ Py.join line_feed commits = Py.strip (stdout result)
          else commits = []
  end.
Proof.
  destruct (get_commits_between_releases_run w base head repo_path l) as [l' ->].
  unfold commits_of.
  destruct (run_command w (log_command base head repo_path)) as [| |result]; try done.
  eexists. split; [done|].
  destruct (returncode result =? 0)%Z; [|done]. repeat split.
  - by destruct (split_cons Py.newline (Py.strip (stdout result))) as (piece & rest & ->).
  - apply split_no_separator.
  - apply join_split.
Qed.

(** X2: [get_current_tag] raises in two cases only: [OSError] when [git]
    cannot be started, [UnicodeDecodeError] when what it prints is not text.
    Otherwise the tag it returns is the first line of the stripped output of
    [git tag] that matches the version pattern, and it is not the empty
    string; it returns [None] exactly when the command exits with a status
    other than zero or no line matches. *)
Theorem get_current_tag_first_match (w : world) (repo_path : option string)
    (l : list log_record) :
  match run_command w (tag_command repo_path) with
  | NotStarted => fst (get_current_tag w repo_path l) = Raise OSError
  | Undecodable _ => fst (get_current_tag w repo_path l) = Raise UnicodeDecodeError
  | Completed result =>
      ∃ current_tag,
        fst (get_current_tag w repo_path l) = Ok current_tag
        ∧ match current_tag with
          | Some tag =>
              returncode result = 0%Z
              ∧ Re.match_version_tag tag = true ∧ truthy_str (Some tag) = true
              ∧ ∃ before rest,
                  lines_of (stdout result) = before ++ tag :: rest
                  ∧ Forall (λ line, Re.match_version_tag line = false) before
          | None =>
              returncode result ≠ 0%Z
              ∨ Forall (λ line, Re.match_version_tag line = false)
                       (lines_of (stdout result))
          end
  end.
Proof.
  destruct (get_current_tag_run w repo_path l) as [l' ->].
  unfold current_tag_of, lines_of.
  destruct (run_command w (tag_command repo_path)) as [| |result]; try done.
  eexists. split; [done|].
  destruct (Z.eqb_spec (returncode result) 0) as [H0|H0]; [|by left].
  destruct (head _) as [tag|] eqn:Hhead.
  - destruct (head_filter_Some _ _ _ Hhead) as (Hm & before & rest & Hlines & Hb).
    split; [done|]. split; [done|]. split; [by apply match_version_tag_truthy|].
    by exists before, rest.
  - right. by apply head_filter_None.
Qed.

(** For instance a tag followed by a no-break space and a line feed is
    found: both are stripped. *)
Example get_current_tag_no_break_space :
  value (get_current_tag
           (world_of {| returncode := 0;
                        stdout := "v1.2.3" +:+ String "194" (String "160" line_feed) |}
                     NoResponse) None)
  = Ok (Some "v1.2.3").
Proof. by vm_compute. Qed.

(** * Further properties: story ids *)

Lemma lower_digit_bytes (ds : string) : digit_bytes ds = true → Py.lower ds = ds.
Proof.
  induction ds as [|c ds IH]; simpl; [done|]. intros [Hc Hd]%andb_true_iff.
  rewrite (IH Hd). f_equal. by destruct c as [[] [] [] [] [] [] [] []].
Qed.

Lemma lower_digits (ds : string) : Py.all_digits ds = true → Py.lower ds = ds.
Proof. intros H. by apply lower_digit_bytes, all_digits_bytes. Qed.

Lemma digit_bytes_without_s (ds : string) : digit_bytes ds = true → contains "s" ds = false.
Proof.
  induction ds as [|c ds IH]; simpl; [done|]. intros [Hc Hd]%andb_true_iff.
  rewrite (IH Hd), orb_false_r. by destruct c as [[] [] [] [] [] [] [] []].
Qed.

Lemma digits_without_s (ds : string) : Py.all_digits ds = true → contains "s" ds = false.
Proof. intros H. by apply digit_bytes_without_s, all_digits_bytes. Qed.

Lemma finditer_without_s (s : string) : contains "s" s = false → Re.finditer s = [].
Proof.
  induction s as [|c s IH]; simpl; [done|]. intros [Hc Hs]%orb_false_iff.
  rewrite finditer_cons.
  assert (Re.match_story_at (String c s) = None) as ->; [|by apply IH].
  by destruct c as [[] [] [] [] [] [] [] []].
Qed.

Lemma finditer_story (ds : string) :
  Py.isdigit ds = true → Re.finditer ("sc-" +:+ ds) = [ds].
Proof.
  intros Hds. pose proof Hds as [Hne Hd]%andb_true_iff.
  change ("sc-" +:+ ds) with (String "s" ("c-" +:+ ds)). rewrite finditer_cons.
  pose proof (match_story_at_story ds EmptyString Hds eq_refl) as Hm.
  rewrite append_nil_r in Hm. rewrite Hm.
  f_equal. apply finditer_without_s. simpl. by apply digits_without_s.
Qed.

Lemma remove_sc_without_s (s : string) : contains "s" s = false → remove_sc s = s.
Proof.
  induction s as [|c s IH]; simpl; [done|]. intros [Hc Hs]%orb_false_iff.
  rewrite (IH Hs). by destruct c as [[] [] [] [] [] [] [] []].
Qed.

Lemma story_id_inv (id : string) :
  is_story_id id = true → ∃ ds, id = "SC-" +:+ ds ∧ Py.isdigit ds = true.
Proof.
  destruct id as [|c0 [|c1 [|c2 ds]]]; try done.
  - simpl. by repeat case_match.
  - simpl. by repeat case_match.
  - intros H. exists ds.
    destruct c0 as [[] [] [] [] [] [] [] []]; try done;
    destruct c1 as [[] [] [] [] [] [] [] []]; try done;
    destruct c2 as [[] [] [] [] [] [] [] []]; done.
Qed.

Lemma lower_story_id (ds : string) :
  Py.isdigit ds = true → Py.lower ("SC-" +:+ ds) = "sc-" +:+ ds.
Proof. intros [_ Hd]%andb_true_iff. simpl. by rewrite (lower_digits _ Hd). Qed.

Lemma elem_of_extract_story_ids_valid (w : world) (id : string)
    (commit_messages : list string) :
  id ∈ extract_story_ids w commit_messages → is_story_id id = true.
Proof.
  intros (message & ds & _ & -> & (_ & _ & _ & Hd & _))%elem_of_extract_story_ids. exact Hd.
Qed.

(** X3: story ids are stable under extraction.  The ids extracted from a
    single valid id are that id alone, and extracting from the extracted ids
    gives the same ids again. *)
Theorem extract_story_ids_of_ids (w : world) (commit_messages : list string) :
  (∀ id, is_story_id id = true → extract_story_ids w [id] = [id])
  ∧ extract_story_ids w (extract_story_ids w commit_messages)
    ≡ₚ extract_story_ids w commit_messages.
Proof.
  assert (∀ id, is_story_id id = true → extract_story_ids w [id] = [id]) as Hone.
  { intros id (ds & -> & Hd)%story_id_inv. unfold extract_story_ids.
    rewrite fold_left_extend. cbn [map concat].
    rewrite (lower_story_id _ Hd), (finditer_story _ Hd). apply list_set_singleton. }
  split; [done|].
  apply NoDup_Permutation; [apply NoDup_list_set..|]. intros id. split.
  - intros (message & ds & Hm & -> & Ho)%elem_of_extract_story_ids.
    pose proof (elem_of_extract_story_ids_valid _ _ _ Hm) as (ds0 & -> & Hd0)%story_id_inv.
    rewrite (lower_story_id _ Hd0) in Ho. apply finditer_spec in Ho.
    rewrite (finditer_story _ Hd0) in Ho. by apply list_elem_of_singleton in Ho as ->.
  - intros Hid. pose proof (elem_of_extract_story_ids_valid _ _ _ Hid) as Hvalid.
    apply elem_of_extract_story_ids. destruct (story_id_inv _ Hvalid) as (ds & -> & Hd).
    exists ("SC-" +:+ ds), ds. split; [done|]. split; [done|].
    apply finditer_spec. rewrite (lower_story_id _ Hd), (finditer_story _ Hd).
    by apply list_elem_of_singleton.
Qed.

Lemma extract_story_ids_of_ids_witness :
  extract_story_ids world_git_silent ["SC-42"] = ["SC-42"].
Proof.
  destruct (extract_story_ids_of_ids world_git_silent []) as [H _]. by apply H.
Defined.

(** X4: the extracted ids depend on which subjects occur, not on their
    order or repetition: two sequences with the same subjects give the same
    ids, up to the order of the result. *)
Theorem extract_story_ids_same_subjects (w : world) (messages1 messages2 : list string) :
  (∀ message, message ∈ messages1 ↔ message ∈ messages2) →
  extract_story_ids w messages1 ≡ₚ extract_story_ids w messages2.
Proof.
  intros Hsame. apply NoDup_Permutation; [apply NoDup_list_set..|].
  intros id. rewrite !elem_of_extract_story_ids.
  split; intros (message & ds & Hm & H); exists message, ds; by rewrite Hsame in *.
Qed.

Lemma extract_story_ids_same_subjects_witness :
  extract_story_ids world_git_silent ["fix sc-1"; "add SC-2"; "fix sc-1"]
  ≡ₚ extract_story_ids world_git_silent ["add SC-2"; "fix sc-1"].
Proof.
  apply extract_story_ids_same_subjects. intros message.
  rewrite !elem_of_cons, !elem_of_nil. tauto.
Defined.

(** X5: no subject, no id; and the ids of two sequences of subjects put
    together are the ids of the first and the ids of the second. *)
Theorem extract_story_ids_app (w : world) (messages1 messages2 : list string) :
  extract_story_ids w [] = []
  ∧ ∀ id, id ∈ extract_story_ids w (messages1 ++ messages2)
          ↔ id ∈ extract_story_ids w messages1 ∨ id ∈ extract_story_ids w messages2.
Proof.
  split; [apply list_set_nil|]. intros id. rewrite !elem_of_extract_story_ids. split.
  - intros (message & ds & [Hm|Hm]%elem_of_app & H); [left|right]; by exists message, ds.
  - intros [(message & ds & Hm & H)|(message & ds & Hm & H)]; exists message, ds;
      (split; [apply elem_of_app; auto | done]).
Qed.

Lemma story_url_story_id (self : ReleaseHandler) (ds : string) :
  Py.isdigit ds = true →
  story_url self ("SC-" +:+ ds) = shortcut_api_url self +:+ "/stories/" +:+ ds.
Proof.
  intros Hd. unfold story_url. rewrite (lower_story_id _ Hd). do 2 f_equal.
  apply andb_true_iff in Hd as [_ Hd].
  change (remove_sc ("sc-" +:+ ds)) with (remove_sc ds).
  by apply remove_sc_without_s, digits_without_s.
Qed.

(** X6: for every id [SC-<digits>] that [extract_story_ids] returns,
    [get_story_details] asks the API for the address made of the API URL,
    [/stories/] and exactly the digits of the id, with the headers of the
    handler: the story it returns is the JSON body of the answer to that
    request, or the empty dict when there is no answer, when its status is
    an error status or when its body is not JSON. *)
Theorem story_url_of_extracted_id (w : world) (self : ReleaseHandler)
    (commit_messages : list string) (id : string) (l : list log_record) :
  id ∈ extract_story_ids w commit_messages →
  ∃ ds, id = "SC-" +:+ ds ∧ Py.isdigit ds = true
        ∧ fst (get_story_details w self id l)
          = Ok (match http_get w (shortcut_api_url self +:+ "/stories/" +:+ ds)
                                 (shortcut_headers self) with
                | Response status (Some story) =>
                    if ((400 <=? status) && (status <? 600))%Z then JObject [] else story
                | _ => JObject []
                end).
Proof.
  intros (ds & -> & Hd)%elem_of_extract_story_ids_valid%story_id_inv.
  exists ds. split; [done|]. split; [done|].
  rewrite oblivious_value by apply oblivious_get_story_details.
  rewrite get_story_details_value. unfold fetched. by rewrite (story_url_story_id _ _ Hd).
Qed.

Lemma story_url_of_extracted_id_witness :
  ∃ ds, "SC-42" = "SC-" +:+ ds ∧ Py.isdigit ds = true
        ∧ fst (get_story_details world_status_300 (handler_of "token") "SC-42" [])
          = Ok (match http_get world_status_300
                        (shortcut_api_url (handler_of "token") +:+ "/stories/" +:+ ds)
                        (shortcut_headers (handler_of "token")) with
                | Response status (Some story) =>
                    if ((400 <=? status) && (status <? 600))%Z then JObject [] else story
                | _ => JObject []
                end).
Proof.
  apply (story_url_of_extracted_id world_status_300 (handler_of "token")
           ["Fix login SC-42"] "SC-42").
  assert (extract_story_ids world_status_300 ["Fix login SC-42"] = ["SC-42"]) as ->
    by (by vm_compute).
  by left.
Defined.



(** * Further properties: stories and buckets *)


Lemma fetched_object_value w self sid fields feature bug chore :
  fetched w self sid = JObject fields →
  fields_get fields "story_type" = None →
  value (categorize_story w self sid (categories_of feature bug chore))
  = Ok (categories_of feature bug chore).
Proof.
  intros Hf Ht. rewrite categorize_story_value, Hf. simpl. rewrite Ht. simpl.
  rewrite categorize_step, !bucket_cons. unfold bucket. simpl. by rewrite !app_nil_r.
Qed.

(** X8: a fetched story without a [story_type] field is read as a story of
    the empty type: the step of the loop raises nothing and leaves the three
    buckets as they are. *)
Theorem categorize_story_without_type (w : world) (self : ReleaseHandler) (sid : string)
    (fields : list (string * json)) (feature bug chore : list story_entry)
    (l : list log_record) :
  fetched w self sid = JObject fields →
  fields_get fields "story_type" = None →
  fst (categorize_story w self sid (categories_of feature bug chore) l)
  = Ok (categories_of feature bug chore).
Proof.
  intros Hf Ht. rewrite oblivious_value by apply oblivious_categorize_story.
  by apply (fetched_object_value w self sid fields).
Qed.

Lemma categorize_story_without_type_witness :
  fst (categorize_story
         (world_of {| returncode := 0; stdout := EmptyString |}
                   (Response 200 (Some (JObject [("name", JString "Untyped")]))))
         (handler_of "token") "SC-5" (categories_of [] [crash_on_load] []) [])
  = Ok (categories_of [] [crash_on_load] []).
Proof.
  by apply (categorize_story_without_type _ _ _ [("name", JString "Untyped")]).
Defined.

(** X9: one story that is not a dict, or whose [story_type] is not a string
    (JSON null, a number), makes [categorize_stories] raise [AttributeError],
    however many other stories there are and wherever it stands. *)
Theorem categorize_stories_malformed_story (w : world) (self : ReleaseHandler)
    (story_ids : list string) (sid : string) (l : list log_record) :
  sid ∈ story_ids →
  typed_entry sid (fetched w self sid) = None →
  fst (categorize_stories w self story_ids l) = Raise AttributeError.
Proof.
  intros Hin Hbad. rewrite oblivious_value by apply oblivious_categorize_stories.
  rewrite categorize_stories_value. unfold typed_stories.
  rewrite mapM_None_2; [done|]. apply Exists_exists. by exists sid.
Qed.

Lemma categorize_stories_malformed_story_witness :
  fst (categorize_stories
         (world_of {| returncode := 0; stdout := EmptyString |}
                   (Response 200 (Some (JObject [("story_type", JNull)]))))
         (handler_of "token") ["SC-1"; "SC-2"] [])
  = Raise AttributeError.
Proof.
  apply (categorize_stories_malformed_story _ _ _ "SC-2"); [by right; left | reflexivity].
Defined.

Lemma typed_stories_ids w self story_ids stories :
  typed_stories w self story_ids = Some stories →
  (λ p, story_id p.2) <$> stories = story_ids.
Proof.
  unfold typed_stories. intros H%mapM_Some.
  induction H as [|sid [story_type entry] story_ids stories Hp _ IH]; [done|].
  rewrite fmap_cons, IH. simpl. by rewrite (typed_entry_story_id _ _ _ _ Hp).
Qed.

Lemma bucket_ids_sublist key (stories : list (string * story_entry)) :
  story_id <$> bucket key stories `sublist_of` (λ p, story_id p.2) <$> stories.
Proof.
  unfold bucket. rewrite <- list_fmap_compose.
  apply fmap_sublist, sublist_filter.
Qed.

Lemma categories_of_lookup_bucket stories key stories' :
  categories_of (bucket "feature" stories) (bucket "bug" stories) (bucket "chore" stories)
    !! key = Some stories' →
  key ∈ three_keys ∧ stories' = bucket key stories.
Proof.
  rewrite lookup_categories_of. unfold three_keys. intros H.
  repeat case_decide; simplify_eq; split; try done;
    rewrite !elem_of_union, !elem_of_singleton; auto.
Qed.

(** X10: in the map [categorize_stories] returns, the story ids of each
    bucket are a subsequence of the ids it was given: no id is invented,
    the order of the ids is kept, and an id given once is in a bucket at
    most once. *)
Theorem categorize_stories_buckets_sublist (w : world) (self : ReleaseHandler)
    (story_ids : list string) (l : list log_record) (categories : categories_t)
    (key : string) (stories : list story_entry) :
  fst (categorize_stories w self story_ids l) = Ok categories →
  categories !! key = Some stories →
  story_id <$> stories `sublist_of` story_ids
  ∧ (NoDup story_ids → NoDup (story_id <$> stories)).
Proof.
  intros Hc Hkey. rewrite oblivious_value in Hc by apply oblivious_categorize_stories.
  rewrite categorize_stories_value in Hc.
  destruct (typed_stories w self story_ids) as [typed|] eqn:Ht; [|done].
  injection Hc as <-. apply categories_of_lookup_bucket in Hkey as [_ ->].
  assert (story_id <$> bucket key typed `sublist_of` story_ids) as Hsub.
  { rewrite <- (typed_stories_ids _ _ _ _ Ht). apply bucket_ids_sublist. }
  split; [done|]. intros Hnd. by apply (sublist_NoDup _ story_ids).
Qed.


Lemma categorize_stories_buckets_sublist_witness :
  story_id <$> [crash_on_load] `sublist_of` ["SC-7"].
Proof.
  refine (proj1 (categorize_stories_buckets_sublist
            (world_of {| returncode := 0; stdout := EmptyString |}
               (Response 200 (Some (JObject [("story_type", JString "Bug");
                                             ("name", JString "Crash on load")]))))
            (handler_of "token") ["SC-7"] [] (categories_of [] [crash_on_load] [])
            "bug" [crash_on_load] _ _)); by vm_compute.
Defined.

Lemma mapM_Some_elem {A B} (f : A → option B) (l : list A) (k : list B) x y :
  mapM f l = Some k → x ∈ l → f x = Some y → y ∈ k.
Proof.
  intros H%mapM_Some Hx Hy.
  induction H as [|x' y' l k Hxy _ IH]; [by apply elem_of_nil in Hx|].
  apply elem_of_cons in Hx as [->|Hx]; [|right; auto].
  assert (y = y') as -> by congruence. by left.
Qed.

(** X11: no story of a recognised type is lost: when [categorize_stories]
    returns, every given id whose fetched story has the lower-cased type
    [feature], [bug] or [chore] has its entry in the bucket of that type. *)
Theorem categorize_stories_keeps_recognised (w : world) (self : ReleaseHandler)
    (story_ids : list string) (l : list log_record) (categories : categories_t)
    (sid story_type : string) (entry : story_entry) :
  fst (categorize_stories w self story_ids l) = Ok categories →
  sid ∈ story_ids →
  typed_entry sid (fetched w self sid) = Some (story_type, entry) →
  story_type ∈ three_keys →
  ∃ stories, categories !! story_type = Some stories ∧ entry ∈ stories.
Proof.
  intros Hc Hin Hsid Hkey. rewrite oblivious_value in Hc by apply oblivious_categorize_stories.
  rewrite categorize_stories_value in Hc.
  destruct (typed_stories w self story_ids) as [typed|] eqn:Ht; [|done].
  injection Hc as <-. exists (bucket story_type typed). split.
  - rewrite lookup_categories_of. unfold three_keys in Hkey.
    apply elem_of_union in Hkey as [[->%elem_of_singleton| ->%elem_of_singleton]%elem_of_union
                                   | ->%elem_of_singleton]; done.
  - apply elem_of_bucket. by apply (mapM_Some_elem _ _ _ sid _ Ht).
Qed.

Lemma categorize_stories_keeps_recognised_witness :
  ∃ stories, categories_of [] [crash_on_load] [] !! "bug" = Some stories
             ∧ crash_on_load ∈ stories.
Proof.
  apply (categorize_stories_keeps_recognised
           (world_of {| returncode := 0; stdout := EmptyString |}
              (Response 200 (Some (JObject [("story_type", JString "Bug");
                                            ("name", JString "Crash on load")]))))
           (handler_of "token") ["SC-7"] [] _ "SC-7").
  - by vm_compute.
  - by left.
  - by vm_compute.
  - unfold three_keys. rewrite !elem_of_union, !elem_of_singleton. auto.
Defined.

Lemma buckets_recognised (stories : list (string * story_entry)) :
  bucket "feature" stories ++ bucket "bug" stories ++ bucket "chore" stories
  ≡ₚ recognised stories.
Proof.
  unfold recognised. induction stories as [|[story_type entry] stories IH]; [done|].
  rewrite !bucket_cons, filter_cons. simpl.
  assert (story_type ∈ three_keys
          ↔ story_type = "feature" ∨ story_type = "bug" ∨ story_type = "chore") as Hkeys.
  { unfold three_keys. rewrite !elem_of_union, !elem_of_singleton. tauto. }
  repeat case_decide; simplify_eq; rewrite ?fmap_cons; simpl;
    try (exfalso; tauto); try done.
  - by rewrite IH.
  - by rewrite <- Permutation_middle, IH.
  - by rewrite app_assoc, <- Permutation_middle, <- app_assoc, IH.
Qed.

Lemma recognised_ids_sublist (stories : list (string * story_entry)) :
  story_id <$> recognised stories `sublist_of` (λ p, story_id p.2) <$> stories.
Proof.
  unfold recognised. rewrite <- list_fmap_compose. apply fmap_sublist, sublist_filter.
Qed.

(** X12: the three buckets together hold at most as many entries as ids
    were given, and when the ids are pairwise distinct no id is in two
    buckets or twice in one. *)
Theorem categorize_stories_buckets_disjoint (w : world) (self : ReleaseHandler)
    (story_ids : list string) (l : list log_record) (categories : categories_t)
    (feature bug chore : list story_entry) :
  fst (categorize_stories w self story_ids l) = Ok categories →
  categories !! "feature" = Some feature →
  categories !! "bug" = Some bug →
  categories !! "chore" = Some chore →
  length (feature ++ bug ++ chore) ≤ length story_ids
  ∧ (NoDup story_ids → NoDup (story_id <$> (feature ++ bug ++ chore))).
Proof.
  intros Hc Hf Hb Hch. rewrite oblivious_value in Hc by apply oblivious_categorize_stories.
  rewrite categorize_stories_value in Hc.
  destruct (typed_stories w self story_ids) as [typed|] eqn:Ht; [|done].
  injection Hc as <-.
  apply categories_of_lookup_bucket in Hf as [_ ->].
  apply categories_of_lookup_bucket in Hb as [_ ->].
  apply categories_of_lookup_bucket in Hch as [_ ->].
  pose proof (recognised_ids_sublist typed) as Hsub.
  rewrite (typed_stories_ids _ _ _ _ Ht) in Hsub.
  rewrite buckets_recognised. split.
  - apply sublist_length in Hsub. by rewrite length_fmap in Hsub.
  - intros Hnd. by apply (sublist_NoDup _ story_ids).
Qed.

Lemma categorize_stories_buckets_disjoint_witness :
  length ([] ++ [crash_on_load] ++ []) ≤ length ["SC-7"].
Proof.
  refine (proj1 (categorize_stories_buckets_disjoint
            (world_of {| returncode := 0; stdout := EmptyString |}
               (Response 200 (Some (JObject [("story_type", JString "Bug");
                                             ("name", JString "Crash on load")]))))
            (handler_of "token") ["SC-7"] [] (categories_of [] [crash_on_load] [])
            [] [crash_on_load] [] _ _ _ _)); by vm_compute.
Defined.

(** * Further properties: release notes *)

Lemma join_nonempty sep x l : Py.is_empty x = false → Py.is_empty (Py.join sep (x :: l)) = false.
Proof. destruct (join_head sep x l) as [rest ->]. by destruct x. Qed.

(** X13: the notes are the empty string exactly when the three buckets are
    empty: any story in any bucket gives at least a heading. *)
Theorem generate_release_notes_empty_iff (py_str : json → string)
    (feature bug chore : list story_entry) (links : bool) (l : list log_record) :
  generate_release_notes py_str (categories_of feature bug chore) links l
  = (Ok EmptyString, l)
  ↔ feature = [] ∧ bug = [] ∧ chore = [].
Proof.
  rewrite generate_release_notes_lines. split.
  - intros [= Hempty]. unfold notes_lines in Hempty.
    destruct feature as [|s1 f]; [|by apply (f_equal Py.is_empty) in Hempty].
    destruct bug as [|s2 b]; [|by apply (f_equal Py.is_empty) in Hempty].
    destruct chore as [|s3 c]; [done|by apply (f_equal Py.is_empty) in Hempty].
  - by intros (-> & -> & ->).
Qed.

Lemma bullet_same_data py_str links s1 s2 :
  same_bullet_data links s1 s2 → bullet py_str links s1 = bullet py_str links s2.
Proof.
  intros [Hname Hid]. unfold bullet. rewrite Hname.
  destruct links; [by rewrite Hid | done].
Qed.

Lemma section_lines_same_data py_str links heading stories1 stories2 :
  Forall2 (same_bullet_data links) stories1 stories2 →
  section_lines py_str links heading stories1 = section_lines py_str links heading stories2.
Proof.
  intros H. unfold section_lines.
  assert (map (bullet py_str links) stories1 = map (bullet py_str links) stories2) as Hmap.
  { induction H as [|s1 s2 l1 l2 Hs _ IH]; simpl; [done|].
    by rewrite IH, (bullet_same_data _ _ _ _ Hs). }
  rewrite Hmap. by destruct H.
Qed.

(** X14: the notes read the name of each story and, with links, its id up
    to letter case, and nothing else: two category maps whose buckets agree
    on these give the same notes, whatever the descriptions (and, without
    links, whatever the ids). *)
Theorem generate_release_notes_ignores_descriptions (py_str : json → string)
    (links : bool) (feature1 bug1 chore1 feature2 bug2 chore2 : list story_entry)
    (l : list log_record) :
  Forall2 (same_bullet_data links) feature1 feature2 →
  Forall2 (same_bullet_data links) bug1 bug2 →
  Forall2 (same_bullet_data links) chore1 chore2 →
  generate_release_notes py_str (categories_of feature1 bug1 chore1) links l
  = generate_release_notes py_str (categories_of feature2 bug2 chore2) links l.
Proof.
  intros Hf Hb Hc. rewrite !generate_release_notes_lines. unfold notes_lines.
  by rewrite (section_lines_same_data _ _ _ _ _ Hf), (section_lines_same_data _ _ _ _ _ Hb),
    (section_lines_same_data _ _ _ _ _ Hc).
Qed.

Lemma generate_release_notes_ignores_descriptions_witness :
  generate_release_notes unnamed_str (categories_of [] [crash_on_load] []) false []
  = generate_release_notes unnamed_str
      (categories_of []
         [{| story_id := "SC-99"; story_name := JString "Crash on load";
             story_description := JString "Stack trace attached" |}] []) false [].
Proof.
  apply generate_release_notes_ignores_descriptions; repeat constructor; discriminate.
Defined.

(** * Further properties: the next version *)

(** X15: without a tag on the current commit the new version keeps the major
    number of the previous one and does not go below its minor number, has
    neither prerelease nor build part, and differs from the previous
    version. *)
Theorem resolve_version_keeps_major (prev new_version : SemVer.Version)
    (categories : categories_t) (l : list log_record) :
  fst (resolve_version prev categories None l) = Ok new_version →
  SemVer.major new_version = SemVer.major prev
  ∧ (SemVer.minor prev ≤ SemVer.minor new_version)%N
  ∧ SemVer.prerelease new_version = []
  ∧ SemVer.build new_version = []
  ∧ new_version ≠ prev.
Proof.
  unfold resolve_version, determine_version_bump, getitem, call_next, mbind, M_bind, log,
    SemVer.next_minor, SemVer.next_patch, SemVer.release.
  simpl. destruct prev as [major minor patch prerelease build]. simpl.
  destruct (categories !! "feature") as [[|story feature]|]; simpl; [| |done].
  - destruct (categories !! "bug") as [[|story bug]|]; simpl; [| |done];
      destruct prerelease; simpl; intros [= <-]; simpl;
      repeat split; try lia; try done; intros [=]; lia.
  - destruct prerelease as [|p prerelease]; simpl.
    + intros [= <-]. simpl. repeat split; try lia. intros [=]; lia.
    + destruct (patch =? 0)%N; simpl; intros [= <-]; simpl;
        repeat split; try lia; try done.
Qed.

Lemma resolve_version_keeps_major_witness :
  SemVer.major (SemVer.release 1 3 0) = SemVer.major (SemVer.release 1 2 3).
Proof.
  refine (proj1 (resolve_version_keeps_major (SemVer.release 1 2 3) (SemVer.release 1 3 0)
                   (categories_of [crash_on_load] [] []) [] _)).
  by vm_compute.
Defined.

(** * Further properties: the driver *)

(** X16: once the command line is parsed, [main] prints its dict only when
    the token is set and not empty, the previous version parses, both [git]
    commands run and print text, every fetched story is a dict with a string
    (or no) [story_type], and the version tag of the current commit, if
    there is one, parses: when one of these fails, it exits. *)
Theorem main_succeeds_only_if (py_str : json → string) (w : world) (args : arguments)
    (l : list log_record) (out : output) :
  fst (main py_str w args l) = Ok out →
  truthy_str (getenv w "SHORTCUT_API_TOKEN") = true
  ∧ is_Some (SemVer.parse (Py.lstrip_char "v" (prev_version args)))
  ∧ completes w (log_command (prev_version args) "HEAD" (repo_path args)) = true
  ∧ completes w (tag_command (repo_path args)) = true
  ∧ is_Some (typed_stories w
               (handler_of (default EmptyString (getenv w "SHORTCUT_API_TOKEN")))
               (extract_story_ids w
                  (commits_of w (prev_version args) "HEAD" (repo_path args))))
  ∧ (∀ current_tag, current_tag_of w (repo_path args) = Some current_tag →
                    is_Some (SemVer.parse (Py.lstrip_char "v" current_tag))).
Proof.
  rewrite main_run. unfold main_result.
  destruct (truthy_str (getenv w "SHORTCUT_API_TOKEN")); simpl; [|done].
  destruct (SemVer.parse (Py.lstrip_char "v" (prev_version args))) as [prev|]; [|done].
  destruct (completes w (log_command _ _ _)); [|done].
  destruct (completes w (tag_command _)); [|done]. simpl.
  destruct (typed_stories _ _ _) as [stories|]; [|done].
  destruct (current_tag_of w (repo_path args)) as [current_tag|].
  - destruct (SemVer.parse (Py.lstrip_char "v" current_tag)) as [version|] eqn:Hv; [|done].
    intros _. repeat split; try done. intros ? [= <-]. by rewrite Hv.
  - intros _. repeat split; done.
Qed.

Lemma main_succeeds_only_if_witness :
  completes world_two_stories (tag_command None) = true
  ∧ is_Some (SemVer.parse (Py.lstrip_char "v" "v1.0.0")).
Proof.
  destruct (main_succeeds_only_if unnamed_str world_two_stories
              {| prev_version := "v1.0.0"; repo_path := None; include_story_links := false |}
              []
              {| tag := "v1.1.0";
                 release_notes :=
                   heading_feature +:+ line_feed +:+ "- Add login" +:+ line_feed
                   +:+ heading_bug +:+ line_feed +:+ "- Crash on load" |})
    as (_ & Hprev & _ & Htag & _); [by vm_compute|].
  by split.
Defined.

Lemma not_digit_dot (r : string) : starts_with_digit (String "." r) = false.
Proof. unfold starts_with_digit. by rewrite first_digit_not_digit. Qed.

Lemma span_digits_of_ascii (s ds r : string) :
  Py.span_ascii_digits s = (ds, r) → starts_with_digit r = false →
  Py.span_digits s = (ds, r).
Proof.
  intros (-> & Hd)%span_ascii_digits_sound Hr.
  apply span_digits_app; [by apply ascii_number_all_digits | done].
Qed.

(** What [[0-9]+\.] matches, \d+\. matches as well. *)
Lemma number_dot_of_digits_dot (s ds r : string) :
  Re.digits_dot s = Some (ds, r) → SemVer.number_dot s = Some (ds, r).
Proof.
  unfold Re.digits_dot, SemVer.number_dot.
  destruct (Py.span_ascii_digits s) as [d t] eqn:Hs.
  destruct t as [|c t]; [done|].
  destruct (Ascii.eqb_spec c ".") as [->|Hc].
  - rewrite (span_digits_of_ascii _ _ _ Hs) by apply not_digit_dot. done.
  - by destruct c as [[] [] [] [] [] [] [] []].
Qed.

Lemma digits_dot_head (s ds r : string) :
  Re.digits_dot s = Some (ds, r) → ∃ c t, s = String c t ∧ Py.is_digit c = true.
Proof.
  unfold Re.digits_dot. destruct (Py.span_ascii_digits s) as [d t] eqn:Hs.
  destruct (span_ascii_digits_sound _ _ _ Hs) as (-> & Hd).
  destruct d as [|c d]; [by repeat case_match|].
  intros _. exists c, (d +:+ t). split; [done|].
  simpl in Hd. by apply andb_true_iff in Hd as [? _].
Qed.

Lemma version_tag_parse_release (current_tag : string) (version : SemVer.Version) :
  Re.match_version_tag current_tag = true →
  SemVer.parse (Py.lstrip_char "v" current_tag) = Some version →
  ∃ major minor patch, version = SemVer.release major minor patch.
Proof.
  intros Hm Hp. destruct current_tag as [|c r0]; [done|].
  assert (c = "v"%char) as ->.
  { destruct c as [[] [] [] [] [] [] [] []]; done. }
  cbn [Re.match_version_tag] in Hm.
  destruct (Re.digits_dot r0) as [[d1 r1]|] eqn:H1; [|done].
  destruct (Re.digits_dot r1) as [[d2 r2]|] eqn:H2; [|done].
  destruct (Py.span_ascii_digits r2) as [d3 r3] eqn:H3.
  apply andb_true_iff in Hm as [Hne Hend].
  assert (Py.lstrip_char "v" (String "v" r0) = r0) as Hstrip.
  { destruct (digits_dot_head _ _ _ H1) as (c & t & -> & Hc). simpl.
    by destruct c as [[] [] [] [] [] [] [] []]. }
  assert (starts_with_digit r3 = false) as Hr3.
  { destruct r3 as [|c [|c' r3]]; try done. simpl in Hend.
    apply Ascii.eqb_eq in Hend as ->. done. }
  rewrite Hstrip in Hp. unfold SemVer.parse in Hp.
  destruct (Py.is_empty r0); [done|].
  rewrite (number_dot_of_digits_dot _ _ _ H1) in Hp. simpl in Hp.
  rewrite (number_dot_of_digits_dot _ _ _ H2) in Hp. simpl in Hp.
  rewrite (span_digits_of_ascii _ _ _ H3 Hr3) in Hp.
  destruct (Py.is_empty d3); [done|].
  assert (SemVer.opt_group "-" r3 = (None, r3) ∧ SemVer.opt_group "+" r3 = (None, r3))
    as [Hg1 Hg2].
  { destruct r3 as [|c [|c' r3]]; try done. simpl in Hend.
    apply Ascii.eqb_eq in Hend as ->. done. }
  rewrite Hg1, Hg2, Hend in Hp. simpl in Hp.
  destruct (_ || _); [done|]. simpl in Hp.
  destruct (Py.int_of_str d1) as [major|]; [|done].
  destruct (Py.int_of_str d2) as [minor|]; [|done].
  destruct (Py.int_of_str d3) as [patch|]; [|done].
  simpl in Hp. injection Hp as <-. by exists major, minor, patch.
Qed.

Lemma bumped_release prev feature :
  ∃ major minor patch, bumped prev feature = SemVer.release major minor patch.
Proof.
  unfold bumped, SemVer.next_minor, SemVer.next_patch.
  repeat case_match; by eexists _, _, _.
Qed.

Lemma main_result_plain_tag py_str w args out :
  main_result py_str w args = Ok out →
  ∃ major minor patch, tag out = version_tag major minor patch.
Proof.
  unfold main_result.
  destruct (negb _); [done|].
  destruct (SemVer.parse (Py.lstrip_char "v" (prev_version args))) as [prev|]; [|done].
  destruct (negb _); [done|].
  destruct (typed_stories _ _ _) as [stories|]; [|done].
  assert (∀ version, out = {| tag := "v" +:+ SemVer.str version;
                              release_notes := release_notes out |} →
                     (∃ major minor patch, version = SemVer.release major minor patch) →
                     ∃ major minor patch, tag out = version_tag major minor patch)
    as Hplain.
  { intros version -> (major & minor & patch & ->). exists major, minor, patch.
    cbn [tag]. by rewrite str_release. }
  destruct (current_tag_of w (repo_path args)) as [current_tag|] eqn:Htag.
  - destruct (SemVer.parse (Py.lstrip_char "v" current_tag)) as [version|] eqn:Hv; [|done].
    intros [= <-]. apply (Hplain version); [done|].
    destruct (current_tag_of_truthy _ _ _ Htag) as [Hm _].
    by apply (version_tag_parse_release current_tag).
  - intros [= <-]. apply (Hplain (bumped prev (bucket "feature" stories))); [done|].
    apply bumped_release.
Qed.

(** X17: the tag [main] prints is always [v<major>.<minor>.<patch>] with
    three decimal numbers without leading zeros, never with a prerelease or
    build part, also when the previous version has one; it matches the
    pattern by which [get_current_tag] recognises version tags. *)
Theorem main_tag_is_plain (py_str : json → string) (w : world) (args : arguments)
    (l : list log_record) (out : output) :
  fst (main py_str w args l) = Ok out →
  ∃ major minor patch,
    tag out = version_tag major minor patch
    ∧ Re.match_version_tag (tag out) = true.
Proof.
  rewrite main_run. intros (major & minor & patch & Htag)%main_result_plain_tag.
  exists major, minor, patch. split; [done|].
  rewrite Htag. apply match_version_tag_version_tag.
Qed.

Lemma main_tag_is_plain_witness :
  ∃ major minor patch, "v1.1.0" = version_tag major minor patch
                       ∧ Re.match_version_tag "v1.1.0" = true.
Proof.
  apply (main_tag_is_plain unnamed_str world_two_stories
           {| prev_version := "v1.0.0"; repo_path := None; include_story_links := false |}
           []
           {| tag := "v1.1.0";
              release_notes :=
                heading_feature +:+ line_feed +:+ "- Add login" +:+ line_feed
                +:+ heading_bug +:+ line_feed +:+ "- Crash on load" |}).
  by vm_compute.
Defined.


(** X19: when [git log] exits with a status other than zero, or its commits
    mention no story id, the current commit has no version tag, and both
    [git] commands print text, the run succeeds: it prints the patch bump of
    the previous version and empty notes. *)
Theorem main_without_story_ids (py_str : json → string) (w : world) (args : arguments)
    (l : list log_record) (token : string) (prev : SemVer.Version)
    (result : CompletedProcess) :
  getenv w "SHORTCUT_API_TOKEN" = Some token → token ≠ EmptyString →
  SemVer.parse (Py.lstrip_char "v" (prev_version args)) = Some prev →
  run_command w (log_command (prev_version args) "HEAD" (repo_path args))
  = Completed result →
  (returncode result ≠ 0%Z ∨ extract_story_ids w (lines_of (stdout result)) = []) →
  completes w (tag_command (repo_path args)) = true →
  current_tag_of w (repo_path args) = None →
  fst (main py_str w args l)
  = Ok {| tag := "v" +:+ SemVer.str (SemVer.next_patch prev);
          release_notes := EmptyString |}.
Proof.
  intros Henv Htoken Hprev Hlog Hids Hrun Htag.
  assert (extract_story_ids w (commits_of w (prev_version args) "HEAD" (repo_path args)) = [])
    as Hnone.
  { unfold commits_of. rewrite Hlog.
    destruct (Z.eqb_spec (returncode result) 0) as [H0|H0].
    - by destruct Hids.
    - apply list_set_nil. }
  rewrite main_run, (main_result_without_tag py_str w args token prev []); try done.
  - unfold completes. by rewrite Hlog.
  - by rewrite Hnone.
Qed.

Lemma main_without_story_ids_witness :
  fst (main unnamed_str world_git_failed
         {| prev_version := "v1.2.3"; repo_path := None; include_story_links := false |} [])
  = Ok {| tag := "v1.2.4"; release_notes := EmptyString |}.
Proof.
  apply (main_without_story_ids unnamed_str world_git_failed _ [] "token"
           (SemVer.release 1 2 3) {| returncode := 1; stdout := EmptyString |});
    try reflexivity; [discriminate|].
  left. discriminate.
Defined.

(** X20: one malformed story among the stories of the commits (not a dict,
    or with a [story_type] that is not a string) makes the whole run exit
    with status 1: nothing is printed. *)
Theorem main_malformed_story_exits (py_str : json → string) (w : world)
    (args : arguments) (l : list log_record) (token sid : string) :
  getenv w "SHORTCUT_API_TOKEN" = Some token → token ≠ EmptyString →
  sid ∈ extract_story_ids w (commits_of w (prev_version args) "HEAD" (repo_path args)) →
  typed_entry sid (fetched w (handler_of token) sid) = None →
  fst (main py_str w args l) = Raise (SystemExit 1).
Proof.
  intros Henv Htoken Hin Hbad. rewrite main_run. unfold main_result.
  rewrite Henv. destruct token; [done|]. cbn [truthy_str negb default from_option id].
  destruct (SemVer.parse _); [|done]. destruct (negb _); [done|].
  unfold typed_stories. rewrite mapM_None_2; [done|]. apply Exists_exists. by exists sid.
Qed.

Lemma main_malformed_story_exits_witness :
  fst (main unnamed_str world_null_type
         {| prev_version := "v1.0.0"; repo_path := None; include_story_links := false |} [])
  = Raise (SystemExit 1).
Proof.
  apply (main_malformed_story_exits unnamed_str world_null_type _ [] "token" "SC-1");
    try reflexivity; [discriminate|].
  assert (extract_story_ids world_null_type
            (commits_of world_null_type "v1.0.0" "HEAD" None) = ["SC-1"])
    as Hids by (by vm_compute).
  change ("SC-1" ∈ extract_story_ids world_null_type
                     (commits_of world_null_type "v1.0.0" "HEAD" None)).
  rewrite Hids. by left.
Defined.

(** X21: the tag does not depend on [--include-story-links] nor on how the
    names are rendered: two runs in the same world with the same previous
    version and repository path print the same tag, or both exit. *)
Theorem main_tag_ignores_links (py_str1 py_str2 : json → string) (w : world)
    (previous : string) (path : option string) (links1 links2 : bool)
    (l1 l2 : list log_record) :
  tag_of (fst (main py_str1 w {| prev_version := previous; repo_path := path;
                                 include_story_links := links1 |} l1))
  = tag_of (fst (main py_str2 w {| prev_version := previous; repo_path := path;
                                   include_story_links := links2 |} l2)).
Proof.
  rewrite !main_run. unfold main_result. cbn [prev_version repo_path include_story_links].
  by repeat case_match.
Qed.

(** Exits and the log. *)

Lemma exits_logged_ret {A} (a : A) : exits_logged (mret a : M A).
Proof. by intros l e l'. Qed.

Lemma exits_logged_raise {A} (e : exn) : is_Exception e = true → exits_logged (raise e : M A).
Proof. intros He l e' l' [= <- <-]. by left. Qed.

Lemma exits_logged_log lvl text arguments : exits_logged (log lvl text arguments).
Proof. by intros l e l'. Qed.

Lemma exits_logged_bind {A B} (m : M A) (f : A → M B) :
  exits_logged m → (∀ a, exits_logged (f a)) → exits_logged (m ≫= f).
Proof.
  intros Hm Hf l e l'. unfold mbind, M_bind.
  destruct (m l) as [[a|e0] l0] eqn:Hml.
  - apply Hf.
  - intros [= <- <-]. by apply (Hm l).
Qed.

Lemma exits_logged_try_except {A} (body : M A) catches (handler : exn → M A) :
  exits_logged body → (∀ e, exits_logged (handler e)) →
  exits_logged (try_except body catches handler).
Proof.
  intros Hb Hh l e l'. unfold try_except.
  destruct (body l) as [[a|e0] l0] eqn:Hbl; [done|].
  destruct (catches e0).
  - apply Hh.
  - intros [= <- <-]. by apply (Hb l).
Qed.

Lemma exits_logged_for_each {A S} (xs : list A) (body : A → S → M S) (s : S) :
  (∀ x s, exits_logged (body x s)) → exits_logged (for_each xs body s).
Proof.
  intros Hb. revert s. induction xs as [|x xs IH]; intros s; simpl.
  - apply exits_logged_ret.
  - apply exits_logged_bind; [apply Hb | apply IH].
Qed.

Lemma exits_logged_error_exit {A} text arguments :
  exits_logged (log ERROR text arguments;; sys_exit 1 : M A).
Proof.
  intros l e l'. unfold mbind, M_bind, log, sys_exit, raise. intros [= <- <-].
  right. split; [done|]. eexists. by rewrite last_snoc.
Qed.

Ltac exits_logged := repeat (simpl; first
  [ match goal with |- ∀ _, _ => intro end
  | apply exits_logged_error_exit
  | apply exits_logged_ret
  | apply exits_logged_raise; reflexivity
  | apply exits_logged_log
  | apply exits_logged_bind
  | apply exits_logged_try_except
  | apply exits_logged_for_each
  | case_match ]).

Lemma exits_logged_main_body py_str w args : exits_logged (main_body py_str w args).
Proof.
  unfold main_body, ReleaseHandler_init, Version_of, get_commits_between_releases,
    categorize_stories, categorize_story, get_story_details, get_current_tag,
    resolve_version, determine_version_bump, generate_release_notes, append_section,
    call_next, Version_of, getitem, subprocess_run, requests_get, raise_for_status,
    response_json, py_get, py_lower.
  exits_logged.
Qed.

(** X22: once the command line is parsed, [main] never lets a Python
    exception escape and never exits with another status than 1; and whenever
    it fails, the last record it logs is an error record. *)
Theorem main_failure_is_logged (py_str : json → string) (w : world) (args : arguments)
    (l l' : list log_record) (e : exn) :
  main py_str w args l = (Raise e, l') →
  e = SystemExit 1 ∧ ends_with_error l'.
Proof.
  unfold main, try_except.
  destruct (main_body py_str w args l) as [[out|e0] l0] eqn:Hbody; [done|].
  destruct (is_Exception e0) eqn:He0.
  - unfold mbind, M_bind, log, sys_exit, raise. intros [= <- <-].
    split; [done|]. eexists. by rewrite last_snoc.
  - intros [= <- <-].
    destruct (exits_logged_main_body py_str w args l e0 l0 Hbody) as [He|H]; [|done].
    congruence.
Qed.

Lemma main_failure_is_logged_witness :
  SystemExit 1 = SystemExit 1 ∧ ends_with_error [token_not_set].
Proof.
  apply (main_failure_is_logged unnamed_str world_no_token
           {| prev_version := "v1.0.0"; repo_path := None; include_story_links := false |}
           []).
  reflexivity.
Defined.

(** X23: when the token is missing or empty, [main] exits with status 1
    after a single error record: nothing else is logged, neither a command
    nor the error of the handler of exceptions. *)
Theorem main_without_token_exits (py_str : json → string) (w : world) (args : arguments)
    (l : list log_record) :
  truthy_str (getenv w "SHORTCUT_API_TOKEN") = false →
  main py_str w args l = (Raise (SystemExit 1), l ++ [token_not_set]).
Proof.
  intros Htoken.
  unfold main, main_body, try_except, ReleaseHandler_init, mbind, M_bind.
  by rewrite Htoken.
Qed.

Lemma main_without_token_exits_witness :
  main unnamed_str world_no_token
    {| prev_version := "v1.0.0"; repo_path := None; include_story_links := false |} []
  = (Raise (SystemExit 1), [] ++ [token_not_set]).
Proof. by apply main_without_token_exits. Defined.

(** X24: when the previous version does not parse, [main] exits with status
    1 after the single error record that names the argument, before any
    command is run. *)
Theorem main_invalid_version_exits (py_str : json → string) (w : world)
    (args : arguments) (l : list log_record) :
  truthy_str (getenv w "SHORTCUT_API_TOKEN") = true →
  SemVer.parse (Py.lstrip_char "v" (prev_version args)) = None →
  main py_str w args l
  = (Raise (SystemExit 1), l ++ [invalid_version_format (prev_version args)]).
Proof.
  intros Htoken Hprev.
  unfold main, main_body, try_except, ReleaseHandler_init, Version_of, mbind, M_bind.
  rewrite Htoken. cbn [negb]. unfold mret, M_ret. by rewrite Hprev.
Qed.

Lemma main_invalid_version_exits_witness :
  main unnamed_str world_git_silent
    {| prev_version := "1.2"; repo_path := None; include_story_links := false |} []
  = (Raise (SystemExit 1), [] ++ [invalid_version_format "1.2"]).
Proof. by apply main_invalid_version_exits. Defined.
Lemma fetched_same_api w w' self sid :
  http_get w' = http_get w → fetched w' self sid = fetched w self sid.
Proof. intros H. unfold fetched. by rewrite H. Qed.

Lemma typed_stories_same_api w w' self ids :
  http_get w' = http_get w → typed_stories w' self ids = typed_stories w self ids.
Proof.
  intros H. unfold typed_stories. apply mapM_ext. intros sid.
  by rewrite (fetched_same_api w w').
Qed.

Lemma typed_stories_Permutation w self ids ids' :
  ids' ≡ₚ ids → is_Some (typed_stories w self ids) → is_Some (typed_stories w self ids').
Proof.
  unfold typed_stories. rewrite !mapM_is_Some. intros Hperm H. by rewrite Hperm.
Qed.

Lemma extract_story_ids_Permutation (w w' : world) (commit_messages : list string) :
  extract_story_ids w' commit_messages ≡ₚ extract_story_ids w commit_messages.
Proof. unfold extract_story_ids. apply list_set_Permutation. Qed.

(** X25: a run is reproducible on the commit it tagged: if [main] prints a
    dict and the current commit then receives the printed tag as its only
    tag, a second run with the same arguments, token, commits and API
    answers prints the same tag again, instead of bumping the version once
    more; and it prints the same notes when it lists the set of ids in the
    same order (in another order, the bullets of a section can change
    places). *)
Theorem main_rerun_on_tagged_commit (py_str : json → string) (w w' : world)
    (args : arguments) (l l' : list log_record) (out : output) :
  fst (main py_str w args l) = Ok out →
  getenv w' = getenv w →
  http_get w' = http_get w →
  run_command w' (log_command (prev_version args) "HEAD" (repo_path args))
  = run_command w (log_command (prev_version args) "HEAD" (repo_path args)) →
  run_command w' (tag_command (repo_path args))
  = Completed {| returncode := 0; stdout := tag out +:+ line_feed |} →
  (∃ out', fst (main py_str w' args l') = Ok out' ∧ tag out' = tag out)
  ∧ (set_order w' = set_order w → fst (main py_str w' args l') = Ok out).
Proof.
  rewrite !main_run. intros Hout Henv Hapi Hlog Htagged.
  destruct (main_result_plain_tag _ _ _ _ Hout) as (major & minor & patch & Htag).
  rewrite Htag in Htagged.
  pose proof (current_tag_of_version_tag _ _ _ _ _ Htagged) as Hcurrent.
  assert (commits_of w' (prev_version args) "HEAD" (repo_path args)
          = commits_of w (prev_version args) "HEAD" (repo_path args)) as Hcommits.
  { unfold commits_of. by rewrite Hlog. }
  assert (completes w' (log_command (prev_version args) "HEAD" (repo_path args))
          = completes w (log_command (prev_version args) "HEAD" (repo_path args)))
    as Hlog'.
  { unfold completes. by rewrite Hlog. }
  assert (completes w' (tag_command (repo_path args)) = true) as Hrun'.
  { unfold completes. by rewrite Htagged. }
  unfold main_result in Hout |- *. rewrite Henv, Hlog', Hrun', Hcommits, Hcurrent.
  destruct (negb (truthy_str _)); [done|].
  destruct (SemVer.parse (Py.lstrip_char "v" (prev_version args))) as [prev|]; [|done].
  destruct (completes w (log_command _ _ _)); [|done].
  destruct (completes w (tag_command _)); [|done]. cbn [andb negb] in Hout |- *.
  rewrite lstrip_v_version_tag, parse_release, str_release.
  destruct (typed_stories w _ _) as [stories|] eqn:Hstories; [|done].
  assert (tag out = version_tag major minor patch
          ∧ release_notes out
            = Py.join line_feed
                (notes_lines py_str (include_story_links args)
                   (bucket "feature" stories) (bucket "bug" stories)
                   (bucket "chore" stories))) as [Htag' Hnotes].
  { split; [done|]. by repeat case_match; simplify_eq. }
  split.
  - destruct (typed_stories_Permutation w
                (handler_of (default EmptyString (getenv w "SHORTCUT_API_TOKEN")))
                (extract_story_ids w (commits_of w (prev_version args) "HEAD" (repo_path args)))
                (extract_story_ids w' (commits_of w (prev_version args) "HEAD" (repo_path args))))
      as [stories' Hstories']; [apply extract_story_ids_Permutation | by rewrite Hstories |].
    rewrite (typed_stories_same_api w w') by done. rewrite Hstories'.
    eexists. split; [done|]. by rewrite Htag'.
  - intros Horder.
    assert (extract_story_ids w' (commits_of w (prev_version args) "HEAD" (repo_path args))
            = extract_story_ids w (commits_of w (prev_version args) "HEAD" (repo_path args)))
      as ->.
    { unfold extract_story_ids, list_set. by rewrite Horder. }
    rewrite (typed_stories_same_api w w') by done. rewrite Hstories.
    f_equal. destruct out as [t n]. simpl in Htag', Hnotes. by rewrite Htag', Hnotes.
Qed.

Lemma main_rerun_on_tagged_commit_witness :
  ∃ out', fst (main unnamed_str world_two_stories_tagged
                 {| prev_version := "v1.0.0"; repo_path := None;
                    include_story_links := false |} [])
          = Ok out'
          ∧ tag out' = "v1.1.0".
Proof.
  refine (proj1 (main_rerun_on_tagged_commit unnamed_str world_two_stories
                   world_two_stories_tagged
                   {| prev_version := "v1.0.0"; repo_path := None;
                      include_story_links := false |} [] []
                   {| tag := "v1.1.0";
                      release_notes :=
                        heading_feature +:+ line_feed +:+ "- Add login" +:+ line_feed
                        +:+ heading_bug +:+ line_feed +:+ "- Crash on load" |}
                   _ _ _ _ _)); reflexivity.
Defined.

Lemma join_elem sep (x : string) (l : list string) :
  x ∈ l → ∃ before rest, Py.join sep l = before +:+ x +:+ rest.
Proof.
  induction l as [|y [|z l] IH]; [by intros ?%elem_of_nil| |].
  - intros ->%list_elem_of_singleton. exists EmptyString, EmptyString. simpl.
    by rewrite append_nil_r.
  - intros [->|Hx]%elem_of_cons.
    + exists EmptyString. eexists. by rewrite join_cons2.
    + destruct (IH Hx) as (before & rest & Hj). rewrite join_cons2, Hj.
      exists (y +:+ sep +:+ before), rest. by rewrite !append_assoc.
Qed.

(** X26: no story of a bucket is left out of the notes: for every story of
    the feature, bug or chore bucket the notes contain its bullet. *)
Theorem generate_release_notes_has_every_bullet (py_str : json → string)
    (feature bug chore : list story_entry) (links : bool) (l : list log_record)
    (story : story_entry) :
  story ∈ feature ++ bug ++ chore →
  ∃ before rest,
    generate_release_notes py_str (categories_of feature bug chore) links l
    = (Ok (before +:+ bullet py_str links story +:+ rest), l).
Proof.
  intros Hin. rewrite generate_release_notes_lines.
  assert (bullet py_str links story ∈ notes_lines py_str links feature bug chore) as Hb.
  { assert (∀ heading stories, story ∈ stories →
              bullet py_str links story ∈ section_lines py_str links heading stories) as Hs.
    { intros heading stories Hst. rewrite section_lines_nonempty.
      - right. rewrite list_elem_of_In. apply in_map. by rewrite <- list_elem_of_In.
      - by destruct Hst. }
    unfold notes_lines. rewrite !elem_of_app. rewrite !elem_of_app in Hin.
    destruct Hin as [?|[?|?]]; auto. }
  destruct (join_elem line_feed _ _ Hb) as (before & rest & ->). by exists before, rest.
Qed.

Lemma generate_release_notes_has_every_bullet_witness :
  ∃ before rest,
    generate_release_notes unnamed_str (categories_of [] [crash_on_load] []) true []
    = (Ok (before +:+ bullet unnamed_str true crash_on_load +:+ rest), []).
Proof.
  apply generate_release_notes_has_every_bullet. by left.
Defined.
